(** * koteyye_music_be: identity and session subsystem

    A shallow embedding of the authentication code of the backend
    (internal/service auth and OAuth services, internal/repository user
    repository, internal/middleware) together with the properties its
    specification states about it.

    Conventions.
    - Go [string] is [string] (a sequence of bytes), Go [int] is [Z] kept
      inside the 64-bit range where the code parses or prints it.
    - A nullable column or [*string] field is an [option].
    - [time.Time] is a whole number of Unix seconds, the precision that
      [jwt.NewNumericDate] keeps and that the validator compares.
    - Logging calls have no effect on results and are left out.

    Layout: the embedding of the code, package by package; the vocabulary
    in which the properties are stated; sample data on which the model is
    run; the properties. *)

From Stdlib Require Import ZArith List String Ascii Bool Lia.
From Stdlib.Strings Require Import Byte.
From Stdlib Require Import Decimal DecimalString DecimalZ DecimalPos.
Import ListNotations.

Local Open Scope string_scope.
Local Open Scope Z_scope.

(* ================================================================== *)
(** ** Results with errors *)

Inductive result (A : Type) : Type :=
| Ok (a : A)
| Err (msg : string).
Arguments Ok {A} a.
Arguments Err {A} msg.

Definition is_ok {A} (r : result A) : bool :=
  match r with Ok _ => true | Err _ => false end.

(** [fmt.Errorf("<ctx>: %w", err)] *)
Definition wrap (ctx : string) (msg : string) : string := ctx ++ ": " ++ msg.

(* ================================================================== *)
(** ** internal/models *)

Module User.
(** [models.User], without the player-state fields (last track, position,
    volume), which no operation below reads.  The avatar column is named
    [avatar_key] in the repository queries and [AvatarURL] in the struct. *)
Record t : Type := mk {
  ID : Z;
  Email : option string;
  Name : option string;
  AvatarURL : option string;
  PasswordHash : option string;
  Provider : option string;
  ExternalID : option string;
  Role : string;
  LastLoginAt : option Z;
  CreatedAt : Z
}.

(** The zero value of the struct. *)
Definition zero : t := mk 0 None None None None None None EmptyString None 0.
End User.

Module OAuthUserInfo.
Record t : Type := mk {
  Email : string;
  Name : string;
  AvatarURL : string;
  ExternalID : string;
  Provider : string
}.
End OAuthUserInfo.

(* ================================================================== *)
(** ** The world outside the process

    The [users] table, its [SERIAL] sequence, the wall clock, the salts
    that bcrypt will draw, and the outcome of the coming round trips to the
    database: [true] at the head of [faults] makes the next repository call
    fail with a transport error and leave the table as it is.  The clock
    does not advance inside one call of the service. *)

Record World : Type := mkWorld {
  rows : list User.t;
  next_id : Z;
  now : Z;
  salts : list string;
  faults : list bool
}.

Definition set_rows (l : list User.t) (w : World) : World :=
  mkWorld l (next_id w) (now w) (salts w) (faults w).
Definition set_next_id (n : Z) (w : World) : World :=
  mkWorld (rows w) n (now w) (salts w) (faults w).
Definition set_salts (l : list string) (w : World) : World :=
  mkWorld (rows w) (next_id w) (now w) l (faults w).
Definition set_faults (l : list bool) (w : World) : World :=
  mkWorld (rows w) (next_id w) (now w) (salts w) l.

(** State monad over the world. *)
Definition M (A : Type) : Type := World -> A * World.

Definition ret {A} (a : A) : M A := fun w => (a, w).
Definition bind {A B} (m : M A) (k : A -> M B) : M B :=
  fun w => let (a, w') := m w in k a w'.

Declare Scope world_scope.
Delimit Scope world_scope with world.
Notation "x <- m ;; k" := (bind m (fun x => k))
  (at level 100, m at next level, right associativity) : world_scope.
Notation "m ;;; k" := (bind m (fun _ => k))
  (at level 100, right associativity) : world_scope.
Local Open Scope world_scope.

Definition get_world : M World := fun w => (w, w).
Definition put_world (w : World) : M unit := fun _ => (tt, w).

(** [time.Now()] *)
Definition time_Now : M Z := fun w => (now w, w).

Definition draw_salt : M string := fun w =>
  match salts w with
  | [] => (EmptyString, w)
  | s :: l => (s, set_salts l w)
  end.

Definition draw_fault : M bool := fun w =>
  match faults w with
  | [] => (false, w)
  | b :: l => (b, set_faults l w)
  end.

(* ================================================================== *)
(** ** internal/repository: UserRepository over the [users] table *)

Module UserRepository.

Definition opt_string_eqb (a b : option string) : bool :=
  match a, b with
  | Some x, Some y => String.eqb x y
  | None, None => true
  | _, _ => false
  end.

Definition has_email (email : string) (u : User.t) : bool :=
  opt_string_eqb (User.Email u) (Some email).

Definition has_id (id : Z) (u : User.t) : bool := User.ID u =? id.

(** [CONSTRAINT check_valid_role] *)
Definition valid_role (r : string) : bool :=
  String.eqb r "user" || String.eqb r "admin" || String.eqb r "guest".

(** The rows a new value is compared with: all of them for an insert,
    those with another id for an update. *)
Definition other_row (self : option Z) (u : User.t) : bool :=
  match self with
  | None => true
  | Some id => negb (has_id id u)
  end.

(** [email VARCHAR(255) UNIQUE]: a non-null email held by another row. *)
Definition email_taken (self : option Z) (email : option string)
    (l : list User.t) : bool :=
  match email with
  | None => false
  | Some e => existsb (fun u => other_row self u && has_email e u) l
  end.

(** [idx_users_provider_external_id]: unique where both are non-null. *)
Definition identity_taken (self : option Z) (provider externalID : option string)
    (l : list User.t) : bool :=
  match provider, externalID with
  | Some p, Some x =>
      existsb (fun u => other_row self u
                        && opt_string_eqb (User.Provider u) (Some p)
                        && opt_string_eqb (User.ExternalID u) (Some x)) l
  | _, _ => false
  end.

Definition transport : string := "connection failure".
Definition violation : string := "constraint violation".
Definition not_found : string := "user not found".

(** [UPDATE users SET ... WHERE id = $n] *)
Definition update_where_id (id : Z) (f : User.t -> User.t) (l : list User.t)
    : list User.t :=
  map (fun u => if has_id id u then f u else u) l.

(** The three row updates: [UpdateUser], [UpdateLastLogin] and
    [LinkOAuthAccount]. *)
Definition replaced (user u : User.t) : User.t :=
  User.mk (User.ID u) (User.Email user) (User.Name user)
    (User.AvatarURL user) (User.PasswordHash u)
    (User.Provider user) (User.ExternalID user)
    (User.Role user) (User.LastLoginAt u) (User.CreatedAt u).

Definition touched (lastLogin : Z) (u : User.t) : User.t :=
  User.mk (User.ID u) (User.Email u) (User.Name u) (User.AvatarURL u)
    (User.PasswordHash u) (User.Provider u) (User.ExternalID u)
    (User.Role u) (Some lastLogin) (User.CreatedAt u).

Definition linked (provider externalID : string) (u : User.t) : User.t :=
  User.mk (User.ID u) (User.Email u) (User.Name u) (User.AvatarURL u)
    (User.PasswordHash u) (Some provider) (Some externalID)
    (User.Role u) (User.LastLoginAt u) (User.CreatedAt u).

(** [CreateUser]: the row comes back with its id and defaults filled in. *)
Definition CreateUser (user : User.t) : M (result User.t) :=
  down <- draw_fault ;;
  if down then ret (Err (wrap "failed to create user" transport))
  else
    w <- get_world ;;
    let id := next_id w in
    put_world (set_next_id (id + 1) w) ;;;
    if negb (valid_role (User.Role user))
       || existsb (has_id id) (rows w)
       || email_taken None (User.Email user) (rows w)
       || identity_taken None (User.Provider user) (User.ExternalID user) (rows w)
    then ret (Err (wrap "failed to create user" violation))
    else
      let row := User.mk id (User.Email user) (User.Name user)
                   (User.AvatarURL user) (User.PasswordHash user)
                   (User.Provider user) (User.ExternalID user)
                   (User.Role user) None (now w) in
      put_world (set_rows (rows w ++ [row]) (set_next_id (id + 1) w)) ;;;
      ret (Ok row).

Definition GetUserByEmail (email : string) : M (result User.t) :=
  down <- draw_fault ;;
  if down then ret (Err (wrap "failed to get user by email" transport))
  else
    w <- get_world ;;
    match find (has_email email) (rows w) with
    | Some u => ret (Ok u)
    | None => ret (Err not_found)
    end.

Definition GetUserByID (id : Z) : M (result User.t) :=
  down <- draw_fault ;;
  if down then ret (Err (wrap "failed to get user by ID" transport))
  else
    w <- get_world ;;
    match find (has_id id) (rows w) with
    | Some u => ret (Ok u)
    | None => ret (Err not_found)
    end.

(** [GetUserWithLastTrack]: the same row, joined with the last track,
    which is outside this model. *)
Definition GetUserWithLastTrack (id : Z) : M (result User.t) :=
  down <- draw_fault ;;
  if down then ret (Err (wrap "failed to get user with last track" transport))
  else
    w <- get_world ;;
    match find (has_id id) (rows w) with
    | Some u => ret (Ok u)
    | None => ret (Err not_found)
    end.

(** [UpdateUser]: email, name, avatar, provider, external id and role
    are replaced; the password hash and the timestamps stay. *)
Definition UpdateUser (user : User.t) : M (result unit) :=
  down <- draw_fault ;;
  if down then ret (Err (wrap "failed to update user" transport))
  else
    w <- get_world ;;
    let id := User.ID user in
    match find (has_id id) (rows w) with
    | None => ret (Err not_found)
    | Some _ =>
        if negb (valid_role (User.Role user))
           || email_taken (Some id) (User.Email user) (rows w)
           || identity_taken (Some id) (User.Provider user) (User.ExternalID user)
                (rows w)
        then ret (Err (wrap "failed to update user" violation))
        else
          put_world (set_rows (update_where_id id (replaced user) (rows w)) w) ;;;
          ret (Ok tt)
    end.

Definition UpdateLastLogin (userID : Z) (lastLogin : Z) : M (result unit) :=
  down <- draw_fault ;;
  if down then ret (Err (wrap "failed to update last login" transport))
  else
    w <- get_world ;;
    match find (has_id userID) (rows w) with
    | None => ret (Err not_found)
    | Some _ =>
        put_world
          (set_rows (update_where_id userID (touched lastLogin) (rows w)) w) ;;;
        ret (Ok tt)
    end.

Definition LinkOAuthAccount (userID : Z) (provider externalID : string)
    : M (result unit) :=
  down <- draw_fault ;;
  if down then ret (Err (wrap "failed to link OAuth account" transport))
  else
    w <- get_world ;;
    match find (has_id userID) (rows w) with
    | None => ret (Err not_found)
    | Some _ =>
        if identity_taken (Some userID) (Some provider) (Some externalID) (rows w)
        then ret (Err (wrap "failed to link OAuth account" violation))
        else
          put_world
            (set_rows
               (update_where_id userID (linked provider externalID) (rows w)) w) ;;;
          ret (Ok tt)
    end.

End UserRepository.

(* ================================================================== *)
(** ** golang.org/x/crypto/bcrypt, as the service relies on it

    [GenerateFromPassword] is a function of the salt it draws and of the
    password; [CompareHashAndPassword] is [true] when Go returns a nil
    error.  The law is bcrypt's contract. *)

Class Bcrypt : Type := {
  GenerateFromPassword : string -> string -> result string;
  CompareHashAndPassword : string -> string -> bool;
  Compare_Generate : forall salt password hash,
    GenerateFromPassword salt password = Ok hash ->
    CompareHashAndPassword hash password = true
}.

(* ================================================================== *)
(** ** github.com/golang-jwt/jwt/v5, as the service relies on it

    A token string is represented by what the library's text-level decoding
    (split on ['.'], base64url, JSON) makes of it: either it has not three
    segments, or each segment is a decoded value or undecodable.  The MAC
    is a parameter; [Verify] recomputes it and compares. *)

Module Jwt.

Record Claims : Type := mkClaims {
  UserID : Z;
  Email : string;
  Role : string;
  ExpiresAt : option Z;
  IssuedAt : option Z;
  NotBefore : option Z
}.

(** The [alg] entry of the header, when present. *)
Record Header : Type := mkHeader { alg : option string }.

Inductive TokenString : Type :=
| Malformed
| Compact (header : option Header) (claims : option Claims)
          (signature : option (list byte)).

Inductive SigningMethod : Type :=
| SigningMethodHMAC (name : string)
| SigningMethodOther (name : string).

Definition mem (x : string) (l : list string) : bool :=
  existsb (String.eqb x) l.

(** The methods the library registers. *)
Definition GetSigningMethod (name : string) : option SigningMethod :=
  if mem name ["HS256"; "HS384"; "HS512"] then Some (SigningMethodHMAC name)
  else if mem name ["RS256"; "RS384"; "RS512"; "ES256"; "ES384"; "ES512";
                    "PS256"; "PS384"; "PS512"; "EdDSA"; "none"]
  then Some (SigningMethodOther name)
  else None.

Class Hmac : Type := {
  hmac : string -> string -> Header * Claims -> list byte
}.

Definition bytes_eqb (a b : list byte) : bool :=
  if list_eq_dec Byte.byte_eq_dec a b then true else false.

Record Token : Type := mkToken {
  Method : SigningMethod;
  TokenHeader : Header;
  TokenClaims : Claims;
  Valid : bool
}.

Section Parser.
Context {H : Hmac}.

(** [jwt.NewWithClaims(method, claims)] then [SignedString(key)] for an
    HMAC method and a byte-slice key: it cannot fail. *)
Definition SignedString (name : string) (claims : Claims) (key : string)
    : result TokenString :=
  let header := mkHeader (Some name) in
  Ok (Compact (Some header) (Some claims)
        (Some (hmac name key (header, claims)))).

(** [Method.Verify] with a byte-slice key; the other methods reject
    such a key. *)
Definition Verify (m : SigningMethod) (key : string)
    (input : Header * Claims) (sig : list byte) : bool :=
  match m with
  | SigningMethodHMAC name => bytes_eqb sig (hmac name key input)
  | SigningMethodOther _ => false
  end.

(** [Validator.Validate]: [exp] and [nbf] are checked when present. *)
Definition expired (now : Z) (c : Claims) : bool :=
  match ExpiresAt c with
  | Some e => negb (now <? e)
  | None => false
  end.

Definition not_yet (now : Z) (c : Claims) : bool :=
  match NotBefore c with
  | Some n => now <? n
  | None => false
  end.

Definition Validate (now : Z) (c : Claims) : result unit :=
  match expired now c, not_yet now c with
  | false, false => Ok tt
  | true, false => Err "token is expired"
  | false, true => Err "token is not valid yet"
  | true, true => Err "token is expired, token is not valid yet"
  end.

Definition ParseWithClaims (tokenString : TokenString)
    (keyFunc : SigningMethod -> Header -> result string)
    : M (result Token) :=
  match tokenString with
  | Malformed =>
      ret (Err "token is malformed: token contains an invalid number of segments")
  | Compact None _ _ =>
      ret (Err "token is malformed: could not decode header")
  | Compact (Some _) None _ =>
      ret (Err "token is malformed: could not decode claim")
  | Compact (Some header) (Some claims) sg =>
      match alg header with
      | None => ret (Err "token is unverifiable: signing method (alg) is unspecified")
      | Some name =>
          match GetSigningMethod name with
          | None =>
              ret (Err "token is unverifiable: signing method (alg) is unavailable")
          | Some method =>
              match sg with
              | None =>
                  ret (Err "token is malformed: could not base64 decode signature")
              | Some sig =>
                  match keyFunc method header with
                  | Err e =>
                      ret (Err (wrap "token is unverifiable: error while executing keyfunc" e))
                  | Ok key =>
                      if negb (Verify method key (header, claims) sig)
                      then ret (Err "token signature is invalid: signature is invalid")
                      else
                        now <- time_Now ;;
                        match Validate now claims with
                        | Err e => ret (Err (wrap "token has invalid claims" e))
                        | Ok _ => ret (Ok (mkToken method header claims true))
                        end
                  end
              end
          end
      end
  end.
End Parser.

End Jwt.

(* ================================================================== *)
(** ** internal/service: AuthService *)

Module AuthResponse.
Record t : Type := mk { Token : Jwt.TokenString; User_ : User.t }.
End AuthResponse.

Module AuthService.

Record t : Type := mk { jwtSecret : string }.

Section Service.
Context {B : Bcrypt} {H : Jwt.Hmac}.
Variable s : t.

Definition day : Z := 24 * 3600.

Definition GenerateToken (user : User.t) : M (result Jwt.TokenString) :=
  t0 <- time_Now ;;
  let expirationTime := t0 + day in
  let email := match User.Email user with Some e => e | None => EmptyString end in
  t1 <- time_Now ;;
  t2 <- time_Now ;;
  let claims :=
    Jwt.mkClaims (User.ID user) email (User.Role user)
      (Some expirationTime) (Some t1) (Some t2) in
  match Jwt.SignedString "HS256" claims (jwtSecret s) with
  | Err e => ret (Err (wrap "failed to sign token" e))
  | Ok tokenString => ret (Ok tokenString)
  end.

(** The key function handed to the parser. *)
Definition keyFunc (m : Jwt.SigningMethod) (h : Jwt.Header) : result string :=
  match m with
  | Jwt.SigningMethodHMAC _ => Ok (jwtSecret s)
  | Jwt.SigningMethodOther _ =>
      Err ("unexpected signing method: "
           ++ match Jwt.alg h with Some a => a | None => EmptyString end)
  end.

Definition ValidateToken (tokenString : Jwt.TokenString)
    : M (result (Z * string)) :=
  r <- Jwt.ParseWithClaims tokenString keyFunc ;;
  match r with
  | Err e => ret (Err (wrap "failed to parse token" e))
  | Ok token =>
      if Jwt.Valid token
      then ret (Ok (Jwt.UserID (Jwt.TokenClaims token),
                    Jwt.Role (Jwt.TokenClaims token)))
      else ret (Err "invalid token")
  end.

Definition Register (email password : string) : M (result AuthResponse.t) :=
  found <- UserRepository.GetUserByEmail email ;;
  match found with
  | Ok _ => ret (Err "user with this email already exists")
  | Err _ =>
      salt <- draw_salt ;;
      match GenerateFromPassword salt password with
      | Err e => ret (Err (wrap "failed to hash password" e))
      | Ok passwordHash =>
          let user :=
            User.mk 0 (Some email) None None (Some passwordHash)
              (Some "local") None "user" None 0 in
          created <- UserRepository.CreateUser user ;;
          match created with
          | Err e => ret (Err (wrap "failed to create user" e))
          | Ok user =>
              tok <- GenerateToken user ;;
              match tok with
              | Err e => ret (Err (wrap "failed to generate token" e))
              | Ok token => ret (Ok (AuthResponse.mk token user))
              end
          end
      end
  end.

Definition Login (email password : string) : M (result AuthResponse.t) :=
  found <- UserRepository.GetUserByEmail email ;;
  match found with
  | Err _ => ret (Err "invalid email or password")
  | Ok user =>
      match User.PasswordHash user with
      | None => ret (Err "user must login via OAuth")
      | Some passwordHash =>
          if negb (CompareHashAndPassword passwordHash password)
          then ret (Err "invalid email or password")
          else
            tok <- GenerateToken user ;;
            match tok with
            | Err e => ret (Err (wrap "failed to generate token" e))
            | Ok token =>
                now <- time_Now ;;
                UserRepository.UpdateLastLogin (User.ID user) now ;;;
                joined <- UserRepository.GetUserWithLastTrack (User.ID user) ;;
                let userWithLastTrack :=
                  match joined with Ok u => u | Err _ => user end in
                ret (Ok (AuthResponse.mk token userWithLastTrack))
            end
      end
  end.

Definition GuestLogin : M (result AuthResponse.t) :=
  let user := User.mk 0 None None None None None None "guest" None 0 in
  created <- UserRepository.CreateUser user ;;
  match created with
  | Err e => ret (Err (wrap "failed to create guest user" e))
  | Ok user =>
      now <- time_Now ;;
      UserRepository.UpdateLastLogin (User.ID user) now ;;;
      tok <- GenerateToken user ;;
      match tok with
      | Err e => ret (Err (wrap "failed to generate token" e))
      | Ok token => ret (Ok (AuthResponse.mk token user))
      end
  end.

Definition nonempty (x : string) : option string :=
  if String.eqb x EmptyString then None else Some x.

Definition PromoteGuestToUser (guestID : Z) (userInfo : OAuthUserInfo.t)
    : M (result AuthResponse.t) :=
  found <- UserRepository.GetUserByID guestID ;;
  match found with
  | Err e => ret (Err (wrap "failed to find guest user" e))
  | Ok user =>
      let name := nonempty (OAuthUserInfo.Name userInfo) in
      let avatarURL := nonempty (OAuthUserInfo.AvatarURL userInfo) in
      let updatedUser :=
        User.mk (User.ID user) (Some (OAuthUserInfo.Email userInfo))
          name avatarURL None
          (Some (OAuthUserInfo.Provider userInfo))
          (Some (OAuthUserInfo.ExternalID userInfo))
          "user" None 0 in
      updated <- UserRepository.UpdateUser updatedUser ;;
      match updated with
      | Err e => ret (Err (wrap "failed to promote guest" e))
      | Ok _ =>
          reloaded <- UserRepository.GetUserByID guestID ;;
          match reloaded with
          | Err e => ret (Err (wrap "failed to get promoted user" e))
          | Ok user =>
              now <- time_Now ;;
              UserRepository.UpdateLastLogin (User.ID user) now ;;;
              tok <- GenerateToken user ;;
              match tok with
              | Err e => ret (Err (wrap "failed to generate token" e))
              | Ok token => ret (Ok (AuthResponse.mk token user))
              end
          end
      end
  end.
End Service.

End AuthService.

(* ================================================================== *)
(** ** The fragment of package fmt the code uses *)

Module Fmt.

Definition int_min : Z := - 2 ^ 63.
Definition int_max : Z := 2 ^ 63 - 1.

(** [fmt.Sprintf("%d", n)] *)
Definition Sprintf_d (n : Z) : string :=
  NilZero.string_of_int (Z.to_int n).

Definition isDigit (c : ascii) : bool :=
  let n := nat_of_ascii c in (Nat.leb 48 n && Nat.leb n 57)%bool.

(** The one-byte white space of [fmt]'s scanner, newline apart. *)
Definition isBlank (c : ascii) : bool :=
  let n := nat_of_ascii c in
  (Nat.eqb n 32 || Nat.eqb n 9 || Nat.eqb n 11 || Nat.eqb n 12 || Nat.eqb n 13)%bool.

Definition isNewline (c : ascii) : bool := Nat.eqb (nat_of_ascii c) 10.

(** [ss.SkipSpace] of a [Sscanf]: blanks are dropped, a newline is an
    error. *)
Fixpoint SkipSpace (s : string) : option string :=
  match s with
  | EmptyString => Some EmptyString
  | String c s' =>
      if isNewline c then None
      else if isBlank c then SkipSpace s'
      else Some s
  end.

(** The loop [for s.accept(digits) {}] of [ss.scanNumber]. *)
Fixpoint takeDigits (s : string) : string :=
  match s with
  | EmptyString => EmptyString
  | String c s' => if isDigit c then String c (takeDigits s') else EmptyString
  end.

(** [strconv.ParseInt(tok, 10, 64)] on a token made of an optional sign
    and at least one digit. *)
Definition ParseInt (neg : bool) (digits : string) : option Z :=
  match NilEmpty.uint_of_string digits with
  | None => None
  | Some d =>
      let v := if neg then - Z.of_uint d else Z.of_uint d in
      if (int_min <=? v) && (v <=? int_max) then Some v else None
  end.

Definition scanNumber (neg : bool) (s : string) : option Z :=
  match s with
  | EmptyString => None                          (* notEOF *)
  | String c _ =>
      if isDigit c then ParseInt neg (takeDigits s)
      else None                                  (* expected integer *)
  end.

(** [fmt.Sscanf(str, "%d", &n)]: [Some n] when it returns a nil error. *)
Definition Sscanf_d (str : string) : option Z :=
  match SkipSpace str with
  | None => None
  | Some EmptyString => None                     (* notEOF *)
  | Some (String c s' as s) =>
      if Ascii.eqb c "-" then scanNumber true s'
      else if Ascii.eqb c "+" then scanNumber false s'
      else scanNumber false s
  end.

End Fmt.

(* ================================================================== *)
(** ** internal/service: OAuthService *)

Module OAuthService.

(** Go's [s[i:]] for [0 <= i <= len(s)]. *)
Fixpoint drop (n : nat) (s : string) : string :=
  match n, s with
  | O, _ => s
  | S n', String _ s' => drop n' s'
  | S _, EmptyString => EmptyString
  end.


Fixpoint findSubstring_loop (s substr : string) (i : nat) : Z :=
  if String.eqb (substring i (String.length substr) s) substr then Z.of_nat i
  else match i with
       | O => -1
       | S i' => findSubstring_loop s substr i'
       end.

(** [findSubstring]: index of the last occurrence, or [-1]. *)
Definition findSubstring (s substr : string) : Z :=
  if Nat.ltb (String.length s) (String.length substr) then -1
  else findSubstring_loop s substr (String.length s - String.length substr).

(** The source also computes a local [idx] that it never reads; it is
    left out. *)
Definition parseStateForGuestID (state : string) : Z :=
  if String.eqb state EmptyString then 0
  else
    let guestPrefix := "guest:" in
    let guestIdx := findSubstring state guestPrefix in
    if guestIdx =? -1 then 0
    else
      let guestIDStr :=
        drop (Z.to_nat (guestIdx + Z.of_nat (String.length guestPrefix))) state in
      match Fmt.Sscanf_d guestIDStr with
      | None => 0
      | Some guestID => guestID
      end.

(** [oauth2.Config], the fields the service sets and reads. *)
Record Config : Type := mkConfig {
  ClientID : string;
  ClientSecret : string;
  RedirectURL : string
}.


(** The provider's side of a callback: the code exchange and the
    user-info request, with the parsing of its answer. *)
Record Provider : Type := mkProvider {
  Exchange : string -> string -> result string;
  getUserInfo : string -> string -> result OAuthUserInfo.t
}.

Record t : Type := mk {
  authService : AuthService.t;
  googleConfig : Config;
  yandexConfig : Config;
  frontendURL : string
}.

Section Service.
Context {B : Bcrypt} {H : Jwt.Hmac}.
Variable s : t.


Definition createOAuthUser (userInfo : OAuthUserInfo.t) : M (result User.t) :=
  let name := AuthService.nonempty (OAuthUserInfo.Name userInfo) in
  let user :=
    User.mk 0 (Some (OAuthUserInfo.Email userInfo)) name None None
      (Some (OAuthUserInfo.Provider userInfo))
      (Some (OAuthUserInfo.ExternalID userInfo)) "user" None 0 in
  created <- UserRepository.CreateUser user ;;
  match created with
  | Err e => ret (Err e)
  | Ok user => ret (Ok user)
  end.

(** The common tail of the email-match branch. *)
Definition touch_and_return (user : User.t) : M (result User.t) :=
  now <- time_Now ;;
  UserRepository.UpdateLastLogin (User.ID user) now ;;;
  ret (Ok user).

Definition is_local (user : User.t) : bool :=
  UserRepository.opt_string_eqb (User.Provider user) (Some "local").

Definition other_provider (user : User.t) (userInfo : OAuthUserInfo.t) : bool :=
  match User.Provider user with
  | Some p => negb (String.eqb p (OAuthUserInfo.Provider userInfo))
  | None => false
  end.

Definition findOrCreateUser (userInfo : OAuthUserInfo.t) (guestUserID : Z)
    : M (result User.t) :=
  found <- UserRepository.GetUserByEmail (OAuthUserInfo.Email userInfo) ;;
  match found with
  | Ok user =>
      if is_local user then
        let user :=
          User.mk (User.ID user) (User.Email user) (User.Name user)
            (User.AvatarURL user) (User.PasswordHash user)
            (Some (OAuthUserInfo.Provider userInfo))
            (Some (OAuthUserInfo.ExternalID userInfo))
            (User.Role user) (User.LastLoginAt user) (User.CreatedAt user) in
        UserRepository.LinkOAuthAccount (User.ID user)
          (OAuthUserInfo.Provider userInfo) (OAuthUserInfo.ExternalID userInfo) ;;;
        touch_and_return user
      else if other_provider user userInfo then
        ret (Err ("user already exists with provider: "
                  ++ match User.Provider user with Some p => p | None => EmptyString end))
      else touch_and_return user
  | Err _ =>
      if guestUserID >? 0 then
        promoted <- AuthService.PromoteGuestToUser (authService s) guestUserID userInfo ;;
        match promoted with
        | Err e => ret (Err (wrap "failed to promote guest" e))
        | Ok response => ret (Ok (AuthResponse.User_ response))
        end
      else createOAuthUser userInfo
  end.

Definition with_provider (provider : string) (u : OAuthUserInfo.t)
    : OAuthUserInfo.t :=
  OAuthUserInfo.mk (OAuthUserInfo.Email u) (OAuthUserInfo.Name u)
    (OAuthUserInfo.AvatarURL u) (OAuthUserInfo.ExternalID u) provider.

Definition HandleCallback (net : Provider) (provider code state : string)
    : M (result (Jwt.TokenString * User.t)) :=
  if negb (String.eqb provider "google" || String.eqb provider "yandex")
  then ret (Err ("unsupported OAuth provider: " ++ provider))
  else
    match Exchange net provider code with
    | Err e => ret (Err (wrap "failed to exchange code for token" e))
    | Ok token =>
        match getUserInfo net provider token with
        | Err e => ret (Err (wrap "failed to get user info" e))
        | Ok userInfo =>
            let userInfo := with_provider provider userInfo in
            let guestUserID := parseStateForGuestID state in
            found <- findOrCreateUser userInfo guestUserID ;;
            match found with
            | Err e => ret (Err (wrap "failed to find or create user" e))
            | Ok user =>
                tok <- AuthService.GenerateToken (authService s) user ;;
                match tok with
                | Err e => ret (Err (wrap "failed to generate token" e))
                | Ok jwtToken => ret (Ok (jwtToken, user))
                end
            end
        end
    end.
End Service.

End OAuthService.

(* ================================================================== *)
(** ** internal/middleware *)

Module Middleware.

(** The two values the middleware stores in the request context. *)
Record Context : Type := mkContext {
  ctx_user_id : option Z;
  ctx_role : option string
}.

Record Request : Type := mkRequest {
  Authorization : option string;
  ctx : Context
}.

Record Response : Type := mkResponse {
  status : Z;
  body : string
}.

Definition Handler : Type := Request -> M Response.

Definition StatusUnauthorized : Z := 401.
Definition StatusForbidden : Z := 403.
Definition StatusInternalServerError : Z := 500.

Definition newline : string := String (ascii_of_nat 10) EmptyString.

Definition dquote : string := String (ascii_of_nat 34) EmptyString.

(** The literal [{"error":"<msg>"}] of the handlers. *)
Definition json_error (msg : string) : string :=
  "{" ++ dquote ++ "error" ++ dquote ++ ":" ++ dquote ++ msg ++ dquote ++ "}".

(** [http.Error(w, msg, code)] *)
Definition http_Error (msg : string) (code : Z) : Response :=
  mkResponse code (msg ++ newline).

(** [r.Header.Get("Authorization")] *)
Definition Header_Get (r : Request) : string :=
  match Authorization r with Some v => v | None => EmptyString end.

(** [strings.Split(s, " ")] *)
Fixpoint Split_space (s : string) : list string :=
  match s with
  | EmptyString => [EmptyString]
  | String c s' =>
      if Ascii.eqb c " " then EmptyString :: Split_space s'
      else match Split_space s' with
           | x :: xs => String c x :: xs
           | [] => [String c EmptyString]
           end
  end.

Definition WithContext (r : Request) (c : Context) : Request :=
  mkRequest (Authorization r) c.

(** [context.WithValue] for the two keys, in turn. *)
Definition with_identity (r : Request) (userID : Z) (role : string) : Request :=
  WithContext r (mkContext (Some userID) (Some role)).

Definition GetUserID (c : Context) : option Z := ctx_user_id c.
Definition GetRole (c : Context) : option string := ctx_role c.

Section Auth.
(** [authService.ValidateToken] on the token text of the header. *)
Variable ValidateToken : string -> M (result (Z * string)).

Definition AuthMiddleware (next : Handler) : Handler := fun r =>
  let authHeader := Header_Get r in
  if String.eqb authHeader EmptyString then
    ret (http_Error (json_error "Authorization header is required")
           StatusUnauthorized)
  else
    match Split_space authHeader with
    | [scheme; tokenString] =>
        if negb (String.eqb scheme "Bearer") then
          ret (http_Error
                 (json_error "Invalid authorization header format. Expected: Bearer <token>")
                 StatusUnauthorized)
        else
          v <- ValidateToken tokenString ;;
          match v with
          | Err _ =>
              ret (http_Error (json_error "Invalid or expired token")
                     StatusUnauthorized)
          | Ok (userID, role) => next (with_identity r userID role)
          end
    | _ =>
        ret (http_Error
               (json_error "Invalid authorization header format. Expected: Bearer <token>")
               StatusUnauthorized)
    end.

Definition OptionalAuthMiddleware (next : Handler) : Handler := fun r =>
  let authHeader := Header_Get r in
  if String.eqb authHeader EmptyString then next r
  else
    match Split_space authHeader with
    | [scheme; tokenString] =>
        if negb (String.eqb scheme "Bearer") then next r
        else
          v <- ValidateToken tokenString ;;
          match v with
          | Err _ => next r
          | Ok (userID, role) => next (with_identity r userID role)
          end
    | _ => next r
    end.
End Auth.

Definition RequireAdmin (next : Handler) : Handler := fun r =>
  match GetUserID (ctx r) with
  | None =>
      ret (http_Error (json_error "User not authenticated") StatusUnauthorized)
  | Some userID =>
      found <- UserRepository.GetUserByID userID ;;
      match found with
      | Err _ =>
          ret (http_Error (json_error "Failed to verify user permissions")
                 StatusInternalServerError)
      | Ok user =>
          if negb (String.eqb (User.Role user) "admin") then
            ret (http_Error (json_error "Forbidden: Admin access required")
                   StatusForbidden)
          else next r
      end
  end.

Definition RequireAuth (next : Handler) : Handler := fun r =>
  match GetUserID (ctx r) with
  | None =>
      ret (http_Error (json_error "User not authenticated") StatusUnauthorized)
  | Some userID =>
      found <- UserRepository.GetUserByID userID ;;
      match found with
      | Err _ =>
          ret (http_Error (json_error "Failed to verify user")
                 StatusInternalServerError)
      | Ok user =>
          if negb (String.eqb (User.Role user) "user")
             && negb (String.eqb (User.Role user) "admin")
             && negb (String.eqb (User.Role user) "guest")
          then
            ret (http_Error (json_error "Forbidden: Invalid user role")
                   StatusForbidden)
          else next r
      end
  end.

End Middleware.

(* ================================================================== *)
(** ** internal/service: the provider answers (oauth_service.go) *)

Module ProviderInfo.

(** [GoogleUserInfo] and [YandexUserInfo], as [encoding/json] fills them:
    an entry missing from the answer leaves the zero value. *)
Record GoogleUserInfo : Type := mkGoogle {
  g_ID : string;
  g_Email : string;
  g_VerifiedEmail : bool;
  g_Name : string;
  g_GivenName : string;
  g_FamilyName : string;
  g_Picture : string
}.

Record YandexUserInfo : Type := mkYandex {
  y_ID : string;
  y_Login : string;
  y_Emails : list string;
  y_DefaultEmail : string;
  y_FirstName : string;
  y_LastName : string;
  y_RealName : string;
  y_DefaultAvatar : string
}.

Definition is_empty (x : string) : bool := String.eqb x EmptyString.

(** [parseGoogleUserInfo], on the outcome of decoding the body. *)
Definition parseGoogleUserInfo (decoded : result GoogleUserInfo)
    : result OAuthUserInfo.t :=
  match decoded with
  | Err e => Err (wrap "failed to decode Google user info" e)
  | Ok info =>
      if negb (g_VerifiedEmail info) then Err "email is not verified"
      else Ok (OAuthUserInfo.mk (g_Email info) (g_Name info) (g_Picture info)
                 (g_ID info) "google")
  end.

(** [parseYandexUserInfo], on the outcome of decoding the body. *)
Definition parseYandexUserInfo (decoded : result YandexUserInfo)
    : result OAuthUserInfo.t :=
  match decoded with
  | Err e => Err (wrap "failed to decode Yandex user info" e)
  | Ok info =>
      let email :=
        if is_empty (y_DefaultEmail info) then
          match y_Emails info with
          | first :: _ => first
          | [] => y_DefaultEmail info
          end
        else y_DefaultEmail info in
      if is_empty email then Err "email not found in Yandex response"
      else
        let name :=
          if is_empty (y_RealName info) then
            if negb (is_empty (y_LastName info)) then
              if negb (is_empty (y_FirstName info))
              then y_FirstName info ++ " " ++ y_LastName info
              else y_LastName info
            else y_FirstName info
          else y_RealName info in
        let avatarURL :=
          if negb (is_empty (y_DefaultAvatar info))
          then "https://avatars.yandex.net/get-yapic/"
               ++ y_DefaultAvatar info ++ "/islands-middle"
          else EmptyString in
        Ok (OAuthUserInfo.mk email name avatarURL (y_ID info) "yandex")
  end.

End ProviderInfo.

(* ================================================================== *)
(** ** internal/service: UserService, the profile and its avatar link *)

Module UserService.

(** [models.UserProfileResponse], without the player-state fields. *)
Record UserProfileResponse : Type := mkProfile {
  p_ID : Z;
  p_Email : option string;
  p_Name : option string;
  p_AvatarURL : option string;
  p_Provider : option string;
  p_Role : string;
  p_LastLoginAt : option Z;
  p_CreatedAt : Z
}.

(** [strings.HasPrefix(s, prefix)] *)
Definition HasPrefix (s prefix : string) : bool := String.prefix prefix s.

(** [GetUserProfile]: a non-empty avatar key becomes a link under
    [/api/avatars/]. *)
Definition GetUserProfile (userID : Z) : M (result UserProfileResponse) :=
  found <- UserRepository.GetUserWithLastTrack userID ;;
  match found with
  | Err e => ret (Err (wrap "failed to get user profile" e))
  | Ok user =>
      let avatarURL :=
        match User.AvatarURL user with
        | Some key =>
            if negb (String.eqb key EmptyString)
            then Some ("/api/avatars/" ++ key)
            else None
        | None => None
        end in
      ret (Ok (mkProfile (User.ID user) (User.Email user) (User.Name user)
                 avatarURL (User.Provider user) (User.Role user)
                 (User.LastLoginAt user) (User.CreatedAt user)))
  end.

Definition extractMinIOKeyFromURL (url : string) : string :=
  if HasPrefix url "/api/avatars/"
  then OAuthService.drop (String.length "/api/avatars/") url
  else EmptyString.

End UserService.

(* ================================================================== *)
(** ** internal/service: TrackService, the paginated listing *)

Module TrackService.


Section Listing.
Variable Track : Type.


End Listing.

End TrackService.

(* ================================================================== *)
(** * Vocabulary of the properties *)

Definition contains (s p : string) : Prop := exists a b, s = a ++ p ++ b.


(** A header that is present but is not [Bearer <token>]: not exactly two
    space-separated parts, or a first part other than ["Bearer"]. *)
Definition malformed (authHeader : string) : Prop :=
  authHeader <> EmptyString
  /\ match Middleware.Split_space authHeader with
     | [scheme; _] => scheme <> "Bearer"
     | _ => True
     end.

Definition rejects {A} (r : result A * World) : Prop := is_ok (fst r) = false.


Definition issued_claims (user : User.t) (t : Z) : Jwt.Claims :=
  Jwt.mkClaims (User.ID user)
    (match User.Email user with Some e => e | None => EmptyString end)
    (User.Role user) (Some (t + 24 * 3600)) (Some t) (Some t).

Definition hs256 : Jwt.Header := Jwt.mkHeader (Some "HS256").

Definition issued_token {H : Jwt.Hmac} (s : AuthService.t) (user : User.t)
    (t : Z) : Jwt.TokenString :=
  Jwt.Compact (Some hs256) (Some (issued_claims user t))
    (Some (Jwt.hmac "HS256" (AuthService.jwtSecret s)
             (hs256, issued_claims user t))).


Definition at_time (t : Z) (w : World) : World :=
  mkWorld (rows w) (next_id w) t (salts w) (faults w).

(** The next [n] round trips to the database succeed. *)
Definition calm (n : nat) (w : World) : Prop :=
  forall k, (k < n)%nat -> nth k (faults w) false = false.

(** Two rows that differ at most in the last-login timestamp. *)
Definition same_account (a b : User.t) : Prop :=
  User.ID a = User.ID b /\ User.Email a = User.Email b
  /\ User.Name a = User.Name b /\ User.AvatarURL a = User.AvatarURL b
  /\ User.PasswordHash a = User.PasswordHash b
  /\ User.Provider a = User.Provider b
  /\ User.ExternalID a = User.ExternalID b /\ User.Role a = User.Role b.

(** The account that promotion writes over [G]. *)
Definition promoted (G : User.t) (userInfo : OAuthUserInfo.t) : User.t :=
  User.mk (User.ID G) (Some (OAuthUserInfo.Email userInfo))
    (AuthService.nonempty (OAuthUserInfo.Name userInfo))
    (AuthService.nonempty (OAuthUserInfo.AvatarURL userInfo))
    (User.PasswordHash G)
    (Some (OAuthUserInfo.Provider userInfo))
    (Some (OAuthUserInfo.ExternalID userInfo))
    "user" (User.LastLoginAt G) (User.CreatedAt G).


(** The link write reaches the database and violates no constraint. *)
Definition link_succeeds (w : World) (u : User.t) (provider externalID : string)
    : Prop :=
  fst (draw_fault (snd (draw_fault w))) = false
  /\ UserRepository.identity_taken (Some (User.ID u)) (Some provider)
       (Some externalID) (rows w) = false.

Definition link_fails (w : World) (u : User.t) (provider externalID : string)
    : Prop :=
  fst (draw_fault (snd (draw_fault w))) = true
  \/ UserRepository.identity_taken (Some (User.ID u)) (Some provider)
       (Some externalID) (rows w) = true.

(* ================================================================== *)
(** * Sample data: a small table and stand-ins for the two libraries *)

Module Sample.

(** A stand-in for bcrypt: the hash keeps the password in front of the
    salt, and comparison looks for it there. *)
Definition hash_of (salt password : string) : string :=
  password ++ "$" ++ salt.

Definition generate (salt password : string) : result string :=
  if Nat.ltb 72 (String.length password)
  then Err "bcrypt: password length exceeds 72 bytes"
  else Ok (hash_of salt password).

Definition compare (hash password : string) : bool :=
  String.prefix (password ++ "$") hash.

Lemma compare_generate (salt password hash : string) :
  generate salt password = Ok hash -> compare hash password = true.
Proof.
  unfold generate, compare, hash_of.
  destruct (Nat.ltb 72 (String.length password)); [discriminate|].
  intros [= <-].
  induction password as [|c p IH]; simpl.
  - destruct (ascii_dec "$" "$"); [now destruct salt | contradiction].
  - destruct (ascii_dec c c); [exact IH | contradiction].
Qed.

Definition bcrypt : Bcrypt :=
  {| GenerateFromPassword := generate;
     CompareHashAndPassword := compare;
     Compare_Generate := compare_generate |}.

Definition mac (name key : string) (input : Jwt.Header * Jwt.Claims) : list byte :=
  list_byte_of_string
    (name ++ "/" ++ key ++ "/" ++ Fmt.Sprintf_d (Jwt.UserID (snd input))
       ++ "/" ++ Jwt.Email (snd input) ++ "/" ++ Jwt.Role (snd input)).

Definition hmac : Jwt.Hmac := {| Jwt.hmac := mac |}.

Definition auth : AuthService.t := AuthService.mk "top-secret".

Definition oauth : OAuthService.t :=
  OAuthService.mk auth
    (OAuthService.mkConfig "gid" "gsecret" "https://music/cb/google")
    (OAuthService.mkConfig "yid" "ysecret" "https://music/cb/yandex")
    "https://music".

(** A locally registered account, an OAuth-only account, a guest and an
    administrator. *)
Definition alice : User.t :=
  User.mk 1 (Some "a@x.com") None None (Some (hash_of "s1" "secret1"))
    (Some "local") None "user" None 900.

Definition gina : User.t :=
  User.mk 2 (Some "g@x.com") (Some "Gina") None None
    (Some "google") (Some "g-42") "user" None 910.

Definition guest : User.t :=
  User.mk 3 None None None None None None "guest" None 920.

Definition root : User.t :=
  User.mk 4 (Some "root@x.com") None None (Some (hash_of "s4" "hunter22"))
    (Some "local") None "admin" None 930.

Definition world : World :=
  mkWorld [alice; gina; guest; root] 5 1000 ["s9"] [].

Definition ok_handler : Middleware.Handler :=
  fun _ => ret (Middleware.mkResponse 200 "ok").

Definition request (authorization : option string) (userID : option Z)
    (role : option string) : Middleware.Request :=
  Middleware.mkRequest authorization (Middleware.mkContext userID role).

End Sample.

Definition reject_all : string -> M (result (Z * string)) :=
  fun _ => ret (Err "rejected").






Definition yandex_gina : OAuthUserInfo.t :=
  OAuthUserInfo.mk "g@x.com" "Gina" EmptyString "y-7" "yandex".

Definition google_newcomer : OAuthUserInfo.t :=
  OAuthUserInfo.mk "n@x.com" "Nina" EmptyString "g-77" "google".

Definition sample_provider : OAuthService.Provider :=
  OAuthService.mkProvider
    (fun _ _ => Ok "access-token")
    (fun _ _ => Ok (OAuthUserInfo.mk "a@x.com" "Alice" EmptyString "g-1" "google")).

(** The same table, with a database that fails the second round trip, the
    link write. *)
Definition flaky_world : World :=
  mkWorld (rows Sample.world) 5 1000 [] [false; true].

Example parse_google_123 :
  OAuthService.parseStateForGuestID "google:guest:123" = 123.
Proof. reflexivity. Qed.

Example parse_trailing :
  OAuthService.parseStateForGuestID "guest:guest:12x" = 12.
Proof. reflexivity. Qed.

Example split_bearer :
  Middleware.Split_space "Bearer abc.def.ghi" = ["Bearer"; "abc.def.ghi"].
Proof. reflexivity. Qed.

Example scan_leading_blank : Fmt.Sscanf_d " +42;" = Some 42.
Proof. reflexivity. Qed.

Example guest_login_twice :
  let (r1, w1) := AuthService.GuestLogin (H := Sample.hmac) Sample.auth
                    Sample.world in
  let (r2, _) := AuthService.GuestLogin (H := Sample.hmac) Sample.auth w1 in
  match r1, r2 with
  | Ok a, Ok b =>
      (User.ID (AuthResponse.User_ a), User.Role (AuthResponse.User_ a),
       User.ID (AuthResponse.User_ b), User.Role (AuthResponse.User_ b))
      = (5, "guest", 6, "guest")
  | _, _ => False
  end.
Proof. vm_compute. reflexivity. Qed.

Example wrong_password :
  fst (AuthService.Login (B := Sample.bcrypt) (H := Sample.hmac) Sample.auth
         "a@x.com" "secret2" Sample.world)
  = Err "invalid email or password".
Proof. reflexivity. Qed.

(* ================================================================== *)
(** * Further vocabulary and sample data *)

Definition sample_yandex : ProviderInfo.YandexUserInfo :=
  ProviderInfo.mkYandex "y-1" "ann" ["ann@ya.ru"; "a2@ya.ru"] EmptyString
    "Ann" "Lee" EmptyString EmptyString.


(** A table with one account that has an avatar. *)
Definition avatar_world : World :=
  mkWorld [User.mk 7 (Some "p@x.com") (Some "Pat") (Some "avatars/7/pic.png")
             None (Some "google") (Some "g-7") "user" None 700]
    8 1000 [] [].

(** The constraints of the [users] table as statements about its rows:
    the primary key, [UNIQUE (email)], the partial unique index on
    [(provider, external_id)] and [check_valid_role]; and the sequence is
    ahead of every id it has given out. *)
Record table_ok (l : list User.t) (n : Z) : Prop := mkTableOk {
  unique_id : NoDup (map User.ID l);
  unique_email :
    forall (u v : User.t) (e : string),
      In u l -> In v l ->
      User.Email u = Some e -> User.Email v = Some e ->
      User.ID u = User.ID v;
  unique_identity :
    forall (u v : User.t) (p x : string),
      In u l -> In v l ->
      User.Provider u = Some p -> User.ExternalID u = Some x ->
      User.Provider v = Some p -> User.ExternalID v = Some x ->
      User.ID u = User.ID v;
  roles_valid :
    forall u : User.t, In u l -> UserRepository.valid_role (User.Role u) = true;
  sequence_ahead : forall u : User.t, In u l -> User.ID u < n
}.

Definition consistent (w : World) : Prop := table_ok (rows w) (next_id w).

(** What no operation changes in a row: its id, its password hash and the
    time it was created. *)
Definition kept (u v : User.t) : Prop :=
  User.ID v = User.ID u
  /\ User.PasswordHash v = User.PasswordHash u
  /\ User.CreatedAt v = User.CreatedAt u.

(** Every account of [l] is still there in [l']. *)
Definition persists (l l' : list User.t) : Prop :=
  forall u : User.t, In u l -> exists v : User.t, In v l' /\ kept u v.

(** One world may follow another. *)
Definition evolves (w w' : World) : Prop :=
  (consistent w -> consistent w')
  /\ persists (rows w) (rows w')
  /\ next_id w <= next_id w'
  /\ now w' = now w.

(** A computation that only moves the world along [evolves]. *)
Definition step {A} (m : M A) : Prop := forall w : World, evolves w (snd (m w)).

(** The operations that write to the [users] table: the four writes of the
    repository and the entry points of the two services that use them. *)
Inductive Operation : Type :=
| OpCreateUser (user : User.t)
| OpUpdateUser (user : User.t)
| OpLinkOAuthAccount (userID : Z) (provider externalID : string)
| OpUpdateLastLogin (userID lastLogin : Z)
| OpRegister (email password : string)
| OpLogin (email password : string)
| OpGuestLogin
| OpPromoteGuestToUser (guestID : Z) (userInfo : OAuthUserInfo.t)
| OpFindOrCreateUser (userInfo : OAuthUserInfo.t) (guestUserID : Z)
| OpHandleCallback (net : OAuthService.Provider) (provider code state : string).

Section Operations.
Context {B : Bcrypt} {H : Jwt.Hmac}.
Variable s : OAuthService.t.

(** The world after an operation, whatever it answered. *)
Definition after (op : Operation) (w : World) : World :=
  match op with
  | OpCreateUser user => snd (UserRepository.CreateUser user w)
  | OpUpdateUser user => snd (UserRepository.UpdateUser user w)
  | OpLinkOAuthAccount userID provider externalID =>
      snd (UserRepository.LinkOAuthAccount userID provider externalID w)
  | OpUpdateLastLogin userID lastLogin =>
      snd (UserRepository.UpdateLastLogin userID lastLogin w)
  | OpRegister email password =>
      snd (AuthService.Register (OAuthService.authService s) email password w)
  | OpLogin email password =>
      snd (AuthService.Login (OAuthService.authService s) email password w)
  | OpGuestLogin => snd (AuthService.GuestLogin (OAuthService.authService s) w)
  | OpPromoteGuestToUser guestID userInfo =>
      snd (AuthService.PromoteGuestToUser (OAuthService.authService s)
             guestID userInfo w)
  | OpFindOrCreateUser userInfo guestUserID =>
      snd (OAuthService.findOrCreateUser s userInfo guestUserID w)
  | OpHandleCallback net provider code state =>
      snd (OAuthService.HandleCallback s net provider code state w)
  end.

(** The world after a sequence of operations. *)
Definition after_all (ops : list Operation) (w : World) : World :=
  fold_left (fun w op => after op w) ops w.
End Operations.

(** A day of the sample service: a registration, a second one with the
    same email, a guest, the guest's promotion through Google, and a
    login. *)
Definition sample_day : list Operation :=
  [ OpRegister "c@x.com" "secret3";
    OpRegister "c@x.com" "other";
    OpGuestLogin;
    OpHandleCallback sample_provider "google" "code" "google:guest:6";
    OpFindOrCreateUser google_newcomer 6;
    OpLogin "a@x.com" "secret1" ].

(* ================================================================== *)
(** * Properties *)

(** ** Strings *)

Lemma length_app (a b : string) :
  String.length (a ++ b) = (String.length a + String.length b)%nat.
Proof. induction a as [|c a IH]; simpl; [reflexivity | now rewrite IH]. Qed.


Lemma substring_empty (i n : nat) : substring i n EmptyString = EmptyString.
Proof. destruct i, n; reflexivity. Qed.

Lemma substring_skip (a r : string) (k n : nat) :
  substring (String.length a + k) n (a ++ r) = substring k n r.
Proof. induction a as [|c a IH]; simpl; [reflexivity | exact IH]. Qed.

Lemma substring_prefix (p b : string) :
  substring 0 (String.length p) (p ++ b) = p.
Proof.
  induction p as [|c p IH]; simpl.
  - destruct b; reflexivity.
  - now rewrite IH.
Qed.

Lemma substring_occurrence (a p b : string) :
  substring (String.length a) (String.length p) (a ++ p ++ b) = p.
Proof.
  rewrite <- (Nat.add_0_r (String.length a)), substring_skip.
  apply substring_prefix.
Qed.

Lemma prefix_of_substring (p s : string) :
  substring 0 (String.length p) s = p -> exists b, s = p ++ b.
Proof.
  revert s; induction p as [|c p IH]; intros s Hs.
  - exists s; reflexivity.
  - destruct s as [|d s]; simpl in Hs; [discriminate|].
    injection Hs as -> Hs. destruct (IH _ Hs) as [b ->].
    exists b; reflexivity.
Qed.

(** An occurrence found by [substring] splits the string around it. *)
Lemma occurrence_of_substring (c : ascii) (p s : string) (i : nat) :
  substring i (String.length (String c p)) s = String c p ->
  exists a b, s = a ++ String c p ++ b /\ String.length a = i.
Proof.
  revert s; induction i as [|i IH]; intros s Hs.
  - destruct (prefix_of_substring _ _ Hs) as [b ->].
    exists EmptyString, b; split; reflexivity.
  - destruct s as [|d s].
    + rewrite substring_empty in Hs; discriminate.
    + change (substring i (String.length (String c p)) s = String c p) in Hs.
      destruct (IH _ Hs) as (a & b & -> & Hl).
      exists (String d a), b; split; simpl; [reflexivity | now rewrite Hl].
Qed.



(** ** The OAuth state *)




Lemma drop_skip (a r : string) (n : nat) :
  OAuthService.drop (String.length a + n) (a ++ r) = OAuthService.drop n r.
Proof. induction a as [|c a IH]; simpl; [reflexivity | exact IH]. Qed.


(** ** Printing and scanning integers *)







Ltac no_occurrence :=
  let a := fresh "a" in
  let b := fresh "b" in
  let E := fresh "E" in
  intros (a & b & E);
  repeat (destruct a as [|? a]; simpl in E; [discriminate E | injection E as _ E]);
  destruct a; discriminate E.



(* ================================================================== *)
(** ** The world and the repository *)

Lemma draw_fault_keeps (w : World) :
  rows (snd (draw_fault w)) = rows w
  /\ next_id (snd (draw_fault w)) = next_id w
  /\ now (snd (draw_fault w)) = now w
  /\ salts (snd (draw_fault w)) = salts w.
Proof. unfold draw_fault; destruct (faults w); simpl; auto. Qed.

Lemma draw_fault_rows (w : World) : rows (snd (draw_fault w)) = rows w.
Proof. apply draw_fault_keeps. Qed.


(** A lookup whose round trip succeeds answers from the table. *)
Lemma GetUserByID_run (id : Z) (w : World) :
  UserRepository.GetUserByID id w
  = (if fst (draw_fault w)
     then Err (wrap "failed to get user by ID" UserRepository.transport)
     else match find (UserRepository.has_id id) (rows w) with
          | Some u => Ok u
          | None => Err UserRepository.not_found
          end,
     snd (draw_fault w)).
Proof.
  unfold UserRepository.GetUserByID, bind, get_world, ret.
  pose proof (draw_fault_rows w) as Hr.
  destruct (draw_fault w) as [[|] w1]; simpl in *; [reflexivity|].
  rewrite Hr. destruct (find _ (rows w)); reflexivity.
Qed.

Lemma GetUserByEmail_run (email : string) (w : World) :
  UserRepository.GetUserByEmail email w
  = (if fst (draw_fault w)
     then Err (wrap "failed to get user by email" UserRepository.transport)
     else match find (UserRepository.has_email email) (rows w) with
          | Some u => Ok u
          | None => Err UserRepository.not_found
          end,
     snd (draw_fault w)).
Proof.
  unfold UserRepository.GetUserByEmail, bind, get_world, ret.
  pose proof (draw_fault_rows w) as Hr.
  destruct (draw_fault w) as [[|] w1]; simpl in *; [reflexivity|].
  rewrite Hr. destruct (find _ (rows w)); reflexivity.
Qed.

(* ================================================================== *)
(** ** Role gates *)

(** C9.  A role gate decides on the role stored for the account it
    re-fetches by id, whatever role the request context carries:
    [RequireAdmin] lets the request through exactly when the stored role
    is ["admin"], [RequireAuth] exactly when it is ["user"], ["admin"] or
    ["guest"]; every other stored role is answered with 403. *)
Theorem role_gates_use_stored_role
    (next : Middleware.Handler) (r : Middleware.Request) (w : World)
    (userID : Z) (u : User.t) :
  Middleware.GetUserID (Middleware.ctx r) = Some userID ->
  fst (draw_fault w) = false ->
  find (UserRepository.has_id userID) (rows w) = Some u ->
  (User.Role u = "admin" ->
     Middleware.RequireAdmin next r w = next r (snd (draw_fault w)))
  /\ (User.Role u <> "admin" ->
     Middleware.RequireAdmin next r w
     = (Middleware.http_Error
          (Middleware.json_error "Forbidden: Admin access required")
          Middleware.StatusForbidden,
        snd (draw_fault w)))
  /\ (User.Role u = "user" \/ User.Role u = "admin" \/ User.Role u = "guest" ->
     Middleware.RequireAuth next r w = next r (snd (draw_fault w)))
  /\ (User.Role u <> "user" /\ User.Role u <> "admin" /\ User.Role u <> "guest" ->
     Middleware.RequireAuth next r w
     = (Middleware.http_Error
          (Middleware.json_error "Forbidden: Invalid user role")
          Middleware.StatusForbidden,
        snd (draw_fault w))).
Proof.
  intros Hid Hup Hrow.
  unfold Middleware.RequireAdmin, Middleware.RequireAuth, bind, ret.
  rewrite Hid, GetUserByID_run, Hup, Hrow.
  repeat split.
  - intros ->. reflexivity.
  - intros Hne. apply String.eqb_neq in Hne. now rewrite Hne.
  - intros [-> | [-> | ->]]; reflexivity.
  - intros (H1 & H2 & H3).
    apply String.eqb_neq in H1, H2, H3. now rewrite H1, H2, H3.
Qed.

Lemma role_gates_use_stored_role_witness :
  (* the administrator, whose token still says "user" *)
  Middleware.RequireAdmin Sample.ok_handler
    (Sample.request None (Some 4) (Some "user")) Sample.world
  = (Middleware.mkResponse 200 "ok", Sample.world)
  /\ (* a guest whose token claims "admin" *)
  fst (Middleware.RequireAdmin Sample.ok_handler
         (Sample.request None (Some 3) (Some "admin")) Sample.world)
  = Middleware.http_Error
      (Middleware.json_error "Forbidden: Admin access required") 403
  /\ Middleware.RequireAuth Sample.ok_handler
       (Sample.request None (Some 3) (Some "admin")) Sample.world
     = (Middleware.mkResponse 200 "ok", Sample.world).
Proof.
  split; [|split].
  - assert (H := proj1 (role_gates_use_stored_role Sample.ok_handler
             (Sample.request None (Some 4) (Some "user")) Sample.world
             4 Sample.root eq_refl eq_refl eq_refl)).
    rewrite H; reflexivity.
  - assert (H := proj1 (proj2 (role_gates_use_stored_role Sample.ok_handler
             (Sample.request None (Some 3) (Some "admin")) Sample.world
             3 Sample.guest eq_refl eq_refl eq_refl))).
    rewrite H; [reflexivity | discriminate].
  - assert (H := proj1 (proj2 (proj2 (role_gates_use_stored_role
             Sample.ok_handler
             (Sample.request None (Some 3) (Some "admin")) Sample.world
             3 Sample.guest eq_refl eq_refl eq_refl)))).
    rewrite H; [reflexivity | right; right; reflexivity].
Defined.

(* ================================================================== *)
(** ** Bearer extraction *)

(** C8, as stated, fails: the Required middleware does not answer an absent
    and a malformed header with the same response. *)
Lemma required_absent_and_malformed_differ :
  fst (Middleware.AuthMiddleware reject_all Sample.ok_handler
         (Sample.request None None None) Sample.world)
  <> fst (Middleware.AuthMiddleware reject_all Sample.ok_handler
            (Sample.request (Some "Basic abc") None None) Sample.world).
Proof. vm_compute. discriminate. Qed.

(** C8, amended.  An absent and a malformed [Authorization] header are
    both rejected by the Required middleware with status 401, before any
    token is validated and with a body that names the cause, and both are
    passed on unchanged, with no identity attached, by the Optional
    middleware. *)
Theorem absent_or_malformed_header
    (ValidateToken : string -> M (result (Z * string)))
    (next : Middleware.Handler) (r : Middleware.Request) (w : World) :
  (Middleware.Header_Get r = EmptyString ->
     Middleware.AuthMiddleware ValidateToken next r w
     = (Middleware.http_Error
          (Middleware.json_error "Authorization header is required")
          Middleware.StatusUnauthorized, w)
     /\ Middleware.OptionalAuthMiddleware ValidateToken next r w = next r w)
  /\ (malformed (Middleware.Header_Get r) ->
     Middleware.AuthMiddleware ValidateToken next r w
     = (Middleware.http_Error
          (Middleware.json_error
             "Invalid authorization header format. Expected: Bearer <token>")
          Middleware.StatusUnauthorized, w)
     /\ Middleware.OptionalAuthMiddleware ValidateToken next r w = next r w).
Proof.
  unfold Middleware.AuthMiddleware, Middleware.OptionalAuthMiddleware.
  split.
  - intros ->. split; reflexivity.
  - intros [Hne Hparts]. apply String.eqb_neq in Hne. rewrite Hne.
    destruct (Middleware.Split_space (Middleware.Header_Get r))
      as [|scheme [|tok [|x l]]]; try (split; reflexivity).
    apply String.eqb_neq in Hparts. rewrite Hparts. split; reflexivity.
Qed.

Lemma absent_or_malformed_header_witness :
  Middleware.status
    (fst (Middleware.AuthMiddleware reject_all Sample.ok_handler
            (Sample.request None None None) Sample.world)) = 401
  /\ Middleware.status
       (fst (Middleware.AuthMiddleware reject_all Sample.ok_handler
               (Sample.request (Some "Bearer a b") None None) Sample.world)) = 401
  /\ Middleware.OptionalAuthMiddleware reject_all Sample.ok_handler
       (Sample.request (Some "Token abc") None None) Sample.world
     = (Middleware.mkResponse 200 "ok", Sample.world).
Proof.
  split; [|split].
  - destruct (proj1 (absent_or_malformed_header reject_all Sample.ok_handler
                       (Sample.request None None None) Sample.world) eq_refl)
      as [-> _].
    reflexivity.
  - destruct (proj2 (absent_or_malformed_header reject_all Sample.ok_handler
                       (Sample.request (Some "Bearer a b") None None)
                       Sample.world)) as [-> _].
    + split; [discriminate | exact I].
    + reflexivity.
  - destruct (proj2 (absent_or_malformed_header reject_all Sample.ok_handler
                       (Sample.request (Some "Token abc") None None)
                       Sample.world)) as [_ ->].
    + split; [discriminate | simpl; discriminate].
    + reflexivity.
Defined.

(* ================================================================== *)
(** ** Session tokens *)


Lemma bytes_eqb_eq (a b : list byte) : Jwt.bytes_eqb a b = true <-> a = b.
Proof.
  unfold Jwt.bytes_eqb. destruct (list_eq_dec byte_eq_dec a b); split;
    auto; discriminate.
Qed.

Lemma bytes_eqb_refl (a : list byte) : Jwt.bytes_eqb a a = true.
Proof. now apply bytes_eqb_eq. Qed.

Section Tokens.
Context {H : Jwt.Hmac}.
Variable s : AuthService.t.

Lemma GenerateToken_run (user : User.t) (w : World) :
  AuthService.GenerateToken s user w = (Ok (issued_token s user (now w)), w).
Proof. reflexivity. Qed.


Lemma Validate_window (t : Z) (c : Jwt.Claims) (n e : Z) :
  Jwt.NotBefore c = Some n -> Jwt.ExpiresAt c = Some e ->
  (n <= t < e -> Jwt.Validate t c = Ok tt)
  /\ (t < n \/ e <= t -> is_ok (Jwt.Validate t c) = false).
Proof.
  intros Hn He. unfold Jwt.Validate, Jwt.expired, Jwt.not_yet.
  rewrite Hn, He. split; intros Ht.
  - destruct (Z.ltb_spec t e); [|lia]. destruct (Z.ltb_spec t n); [lia|].
    reflexivity.
  - destruct (Z.ltb_spec t e), (Z.ltb_spec t n); simpl; try reflexivity; lia.
Qed.

(** A token issued for [user] at [t], validated in the world [w]. *)
Lemma ValidateToken_issued (user : User.t) (t : Z) (w : World) :
  (t <= now w < t + 24 * 3600 ->
     fst (AuthService.ValidateToken s (issued_token s user t) w)
     = Ok (User.ID user, User.Role user))
  /\ (now w < t \/ t + 24 * 3600 <= now w ->
     rejects (AuthService.ValidateToken s (issued_token s user t) w)).
Proof.
  unfold rejects, AuthService.ValidateToken, issued_token, Jwt.ParseWithClaims,
    bind, ret, time_Now.
  cbn [Jwt.alg hs256 Jwt.GetSigningMethod Jwt.mem existsb String.eqb
       Ascii.eqb Bool.eqb orb AuthService.keyFunc Jwt.Verify].
  rewrite bytes_eqb_refl. cbn [negb].
  destruct (Validate_window (now w) (issued_claims user t) t (t + 24 * 3600)
              eq_refl eq_refl) as [Hin Hout].
  split; intros Ht.
  - rewrite (Hin Ht). reflexivity.
  - specialize (Hout Ht). destruct (Jwt.Validate _ _); [discriminate|].
    reflexivity.
Qed.

End Tokens.

(** C5.  A token issued by [GenerateToken] at the instant [now] carries
    issuedAt = now, notBefore = now and expiresAt = now + 24h;
    [ValidateToken] accepts it at every instant from notBefore on and
    strictly before expiresAt, and rejects it at expiresAt and at every
    later instant.  At notBefore exactly it is valid, at expiresAt exactly
    it is not. *)
Theorem token_validity_window {H : Jwt.Hmac}
    (s : AuthService.t) (user : User.t) (w : World) :
  exists (tok : Jwt.TokenString) (hd : Jwt.Header) (c : Jwt.Claims)
         (sig : list byte),
    AuthService.GenerateToken s user w = (Ok tok, w)
    /\ tok = Jwt.Compact (Some hd) (Some c) (Some sig)
    /\ Jwt.IssuedAt c = Some (now w)
    /\ Jwt.NotBefore c = Some (now w)
    /\ Jwt.ExpiresAt c = Some (now w + 24 * 3600)
    /\ forall w' : World,
         (now w <= now w' < now w + 24 * 3600 ->
            fst (AuthService.ValidateToken s tok w')
            = Ok (User.ID user, User.Role user))
         /\ (now w + 24 * 3600 <= now w' ->
            rejects (AuthService.ValidateToken s tok w'))
         /\ (now w' = now w ->
            fst (AuthService.ValidateToken s tok w')
            = Ok (User.ID user, User.Role user))
         /\ (now w' = now w + 24 * 3600 ->
            rejects (AuthService.ValidateToken s tok w')).
Proof.
  exists (issued_token s user (now w)), hs256, (issued_claims user (now w)),
    (Jwt.hmac "HS256" (AuthService.jwtSecret s)
       (hs256, issued_claims user (now w))).
  split; [apply GenerateToken_run|].
  do 4 (split; [reflexivity|]).
  intros w'.
  destruct (ValidateToken_issued s user (now w) w') as [Hin Hout].
  repeat split; intros Ht.
  - apply Hin, Ht.
  - apply Hout; right; exact Ht.
  - apply Hin; lia.
  - apply Hout; right; lia.
Qed.

Lemma token_validity_window_witness :
  exists tok : Jwt.TokenString,
    fst (AuthService.GenerateToken (H := Sample.hmac) Sample.auth Sample.alice
           Sample.world) = Ok tok
    /\ fst (AuthService.ValidateToken (H := Sample.hmac) Sample.auth tok
              Sample.world) = Ok (1, "user")
    /\ fst (AuthService.ValidateToken (H := Sample.hmac) Sample.auth tok
              (at_time (1000 + 86399) Sample.world)) = Ok (1, "user")
    /\ rejects (AuthService.ValidateToken (H := Sample.hmac) Sample.auth tok
                  (at_time (1000 + 86400) Sample.world)).
Proof.
  destruct (token_validity_window (H := Sample.hmac) Sample.auth Sample.alice
              Sample.world) as (tok & hd & c & sig & Hgen & _ & _ & _ & _ & Hw).
  exists tok. rewrite Hgen. split; [reflexivity|].
  split; [|split].
  - destruct (Hw Sample.world) as (_ & _ & Hat & _). apply Hat. reflexivity.
  - destruct (Hw (at_time (1000 + 86399) Sample.world)) as (Hin & _).
    apply Hin. simpl. lia.
  - destruct (Hw (at_time (1000 + 86400) Sample.world)) as (_ & _ & _ & Hexp).
    apply Hexp. reflexivity.
Defined.

Section Validation.
Context {H : Jwt.Hmac}.
Variable s : AuthService.t.





End Validation.




(* ================================================================== *)
(** ** Password login *)

(** C1, as stated, fails: an unknown email and the email of an account
    without password credential are refused with different errors. *)
Lemma login_errors_differ :
  fst (AuthService.Login (B := Sample.bcrypt) (H := Sample.hmac) Sample.auth
         "nobody@x.com" "secret1" Sample.world)
  = Err "invalid email or password"
  /\ fst (AuthService.Login (B := Sample.bcrypt) (H := Sample.hmac) Sample.auth
            "g@x.com" "secret1" Sample.world)
     = Err "user must login via OAuth"
  /\ fst (AuthService.Login (B := Sample.bcrypt) (H := Sample.hmac) Sample.auth
            "nobody@x.com" "secret1" Sample.world)
     <> fst (AuthService.Login (B := Sample.bcrypt) (H := Sample.hmac)
               Sample.auth "g@x.com" "secret1" Sample.world).
Proof.
  split; [reflexivity|]. split; [reflexivity|].
  vm_compute. discriminate.
Qed.

(** C1, amended.  A failing [Login] returns one of two errors: "invalid
    email or password" when the email resolves to no account or the stored
    hash does not match the password, and "user must login via OAuth" when
    the account has no password credential. *)
Theorem login_failure_errors {B : Bcrypt} {H : Jwt.Hmac}
    (s : AuthService.t) (email password : string) (w : World) :
  (fst (draw_fault w) = true
   \/ find (UserRepository.has_email email) (rows w) = None ->
     fst (AuthService.Login s email password w)
     = Err "invalid email or password")
  /\ (forall (u : User.t) (hash : string),
      fst (draw_fault w) = false ->
      find (UserRepository.has_email email) (rows w) = Some u ->
      User.PasswordHash u = Some hash ->
      CompareHashAndPassword hash password = false ->
      fst (AuthService.Login s email password w)
      = Err "invalid email or password")
  /\ (forall u : User.t,
      fst (draw_fault w) = false ->
      find (UserRepository.has_email email) (rows w) = Some u ->
      User.PasswordHash u = None ->
      fst (AuthService.Login s email password w)
      = Err "user must login via OAuth")
  /\ (forall e : string,
      fst (AuthService.Login s email password w) = Err e ->
      e = "invalid email or password" \/ e = "user must login via OAuth").
Proof.
  repeat split;
    unfold AuthService.Login; unfold bind at 1; rewrite GetUserByEmail_run.
  - intros [Hd | Hf].
    + rewrite Hd. reflexivity.
    + destruct (fst (draw_fault w)); [reflexivity|]. rewrite Hf. reflexivity.
  - intros u hash Hd Hf Hh Hc. rewrite Hd, Hf. cbn [ret]. rewrite Hh, Hc.
    reflexivity.
  - intros u Hd Hf Hh. rewrite Hd, Hf. cbn [ret]. rewrite Hh. reflexivity.
  - intros e.
    destruct (fst (draw_fault w)); [intros [= <-]; now left|].
    destruct (find _ (rows w)) as [u|]; [|intros [= <-]; now left].
    destruct (User.PasswordHash u) as [hash|]; [|intros [= <-]; now right].
    destruct (CompareHashAndPassword hash password);
      [|intros [= <-]; now left].
    cbn [negb]. unfold bind. rewrite GenerateToken_run.
    unfold time_Now.
    destruct (UserRepository.UpdateLastLogin _ _ _) as [r1 w1].
    destruct (UserRepository.GetUserWithLastTrack _ _) as [r2 w2].
    discriminate.
Qed.

Lemma login_failure_errors_witness :
  fst (AuthService.Login (B := Sample.bcrypt) (H := Sample.hmac) Sample.auth
         "nobody@x.com" "secret1" Sample.world)
  = Err "invalid email or password"
  /\ fst (AuthService.Login (B := Sample.bcrypt) (H := Sample.hmac) Sample.auth
            "a@x.com" "secret2" Sample.world)
     = Err "invalid email or password"
  /\ fst (AuthService.Login (B := Sample.bcrypt) (H := Sample.hmac) Sample.auth
            "g@x.com" "secret1" Sample.world)
     = Err "user must login via OAuth".
Proof.
  split; [|split].
  - apply (login_failure_errors (B := Sample.bcrypt) (H := Sample.hmac)
             Sample.auth "nobody@x.com" "secret1" Sample.world).
    right. reflexivity.
  - apply (proj1 (proj2 (login_failure_errors (B := Sample.bcrypt)
             (H := Sample.hmac) Sample.auth "a@x.com" "secret2" Sample.world))
             Sample.alice (Sample.hash_of "s1" "secret1"));
      reflexivity.
  - apply (proj1 (proj2 (proj2 (login_failure_errors (B := Sample.bcrypt)
             (H := Sample.hmac) Sample.auth "g@x.com" "secret1" Sample.world)))
             Sample.gina); reflexivity.
Defined.

(* ================================================================== *)
(** ** Writes to the table *)

Lemma UpdateLastLogin_run (id t : Z) (w : World) :
  UserRepository.UpdateLastLogin id t w
  = if fst (draw_fault w)
    then (Err (wrap "failed to update last login" UserRepository.transport),
          snd (draw_fault w))
    else match find (UserRepository.has_id id) (rows w) with
         | None => (Err UserRepository.not_found, snd (draw_fault w))
         | Some _ =>
             (Ok tt,
              set_rows (UserRepository.update_where_id id
                          (UserRepository.touched t) (rows w))
                (snd (draw_fault w)))
         end.
Proof.
  unfold UserRepository.UpdateLastLogin, bind, get_world, put_world, ret.
  pose proof (draw_fault_rows w) as Hr.
  destruct (draw_fault w) as [[|] w1]; cbn [fst snd] in *; [reflexivity|].
  rewrite Hr. destruct (find _ (rows w)); reflexivity.
Qed.

Lemma LinkOAuthAccount_run (id : Z) (p x : string) (w : World) :
  UserRepository.LinkOAuthAccount id p x w
  = if fst (draw_fault w)
    then (Err (wrap "failed to link OAuth account" UserRepository.transport),
          snd (draw_fault w))
    else match find (UserRepository.has_id id) (rows w) with
         | None => (Err UserRepository.not_found, snd (draw_fault w))
         | Some _ =>
             if UserRepository.identity_taken (Some id) (Some p) (Some x) (rows w)
             then (Err (wrap "failed to link OAuth account"
                          UserRepository.violation),
                   snd (draw_fault w))
             else (Ok tt,
                   set_rows (UserRepository.update_where_id id
                               (UserRepository.linked p x) (rows w))
                     (snd (draw_fault w)))
         end.
Proof.
  unfold UserRepository.LinkOAuthAccount, bind, get_world, put_world, ret.
  pose proof (draw_fault_rows w) as Hr.
  destruct (draw_fault w) as [[|] w1]; cbn [fst snd] in *; [reflexivity|].
  rewrite Hr. destruct (find _ (rows w)); [|reflexivity].
  destruct (UserRepository.identity_taken (Some id) (Some p) (Some x) (rows w));
    reflexivity.
Qed.

Lemma UpdateUser_run (user : User.t) (w : World) :
  UserRepository.UpdateUser user w
  = if fst (draw_fault w)
    then (Err (wrap "failed to update user" UserRepository.transport),
          snd (draw_fault w))
    else match find (UserRepository.has_id (User.ID user)) (rows w) with
         | None => (Err UserRepository.not_found, snd (draw_fault w))
         | Some _ =>
             if negb (UserRepository.valid_role (User.Role user))
                || UserRepository.email_taken (Some (User.ID user))
                     (User.Email user) (rows w)
                || UserRepository.identity_taken (Some (User.ID user))
                     (User.Provider user) (User.ExternalID user) (rows w)
             then (Err (wrap "failed to update user" UserRepository.violation),
                   snd (draw_fault w))
             else (Ok tt,
                   set_rows (UserRepository.update_where_id (User.ID user)
                               (UserRepository.replaced user) (rows w))
                     (snd (draw_fault w)))
         end.
Proof.
  unfold UserRepository.UpdateUser, bind, get_world, put_world, ret.
  pose proof (draw_fault_rows w) as Hr.
  destruct (draw_fault w) as [[|] w1]; cbn [fst snd] in *; [reflexivity|].
  rewrite Hr. destruct (find _ (rows w)); [|reflexivity].
  destruct (_ || _ || _); reflexivity.
Qed.

Lemma CreateUser_run (user : User.t) (w : World) :
  UserRepository.CreateUser user w
  = if fst (draw_fault w)
    then (Err (wrap "failed to create user" UserRepository.transport),
          snd (draw_fault w))
    else
      if negb (UserRepository.valid_role (User.Role user))
         || existsb (UserRepository.has_id (next_id w)) (rows w)
         || UserRepository.email_taken None (User.Email user) (rows w)
         || UserRepository.identity_taken None (User.Provider user)
              (User.ExternalID user) (rows w)
      then (Err (wrap "failed to create user" UserRepository.violation),
            set_next_id (next_id w + 1) (snd (draw_fault w)))
      else
        let row := User.mk (next_id w) (User.Email user) (User.Name user)
                     (User.AvatarURL user) (User.PasswordHash user)
                     (User.Provider user) (User.ExternalID user)
                     (User.Role user) None (now w) in
        (Ok row,
         set_rows (rows w ++ [row])
           (set_next_id (next_id w + 1) (snd (draw_fault w)))).
Proof.
  unfold UserRepository.CreateUser, bind, get_world, put_world, ret.
  destruct (draw_fault_keeps w) as (Hr & Hn & Ht & _).
  destruct (draw_fault w) as [[|] w1]; cbn [fst snd] in *; [reflexivity|].
  rewrite Hr, Hn, Ht. destruct (_ || _ || _ || _); reflexivity.
Qed.

(** The sequence stays ahead of the identifiers in the table. *)
Lemma CreateUser_keeps_sequence (user : User.t) (w : World) :
  (forall v, In v (rows w) -> User.ID v < next_id w) ->
  forall v, In v (rows (snd (UserRepository.CreateUser user w))) ->
            User.ID v < next_id (snd (UserRepository.CreateUser user w)).
Proof.
  intros Hseq v. rewrite CreateUser_run.
  destruct (draw_fault_keeps w) as (Hr & Hn & _).
  destruct (fst (draw_fault w)); cbn [snd].
  - rewrite Hr, Hn. apply Hseq.
  - destruct (_ || _ || _ || _); cbn [snd rows next_id set_rows set_next_id].
    + rewrite Hr. intros Hv. specialize (Hseq v Hv). lia.
    + intros Hv. apply in_app_or in Hv as [Hv | [<- | []]].
      * specialize (Hseq v Hv). lia.
      * cbn [User.ID]. lia.
Qed.

(** Reading after a write that keeps the key. *)
Lemma find_map_keeps {A} (p : A -> bool) (g : A -> A) (l : list A) :
  (forall a, p (g a) = p a) ->
  find p (map g l) = option_map g (find p l).
Proof.
  intros Hp. induction l as [|a l IH]; simpl; [reflexivity|].
  rewrite Hp. destruct (p a); [reflexivity | exact IH].
Qed.


Lemma find_update_by_email (id : Z) (e : string) (f : User.t -> User.t)
    (l : list User.t) :
  (forall u, User.Email (f u) = User.Email u) ->
  find (UserRepository.has_email e) (UserRepository.update_where_id id f l)
  = option_map (fun u => if UserRepository.has_id id u then f u else u)
      (find (UserRepository.has_email e) l).
Proof.
  intros Hf. apply find_map_keeps. intros u.
  unfold UserRepository.has_email.
  destruct (UserRepository.has_id id u); [now rewrite Hf | reflexivity].
Qed.

Lemma find_has_id (id : Z) (l : list User.t) (u : User.t) :
  find (UserRepository.has_id id) l = Some u -> User.ID u = id.
Proof.
  intros Hf. apply find_some in Hf as [_ Hid].
  now apply Z.eqb_eq in Hid.
Qed.

(** A row of the table is found by its own id. *)
Lemma find_own_id (p : User.t -> bool) (l : list User.t) (u : User.t) :
  find p l = Some u ->
  exists v, find (UserRepository.has_id (User.ID u)) l = Some v.
Proof.
  intros Hf. apply find_some in Hf as [Hin _].
  destruct (find (UserRepository.has_id (User.ID u)) l) as [v|] eqn:E.
  - exists v; reflexivity.
  - exfalso. apply (find_none _ _ E) in Hin.
    unfold UserRepository.has_id in Hin. rewrite Z.eqb_refl in Hin.
    discriminate.
Qed.

(* ================================================================== *)
(** ** Identity reconciliation *)

(** C2.  When the email of the external identity belongs to an account
    whose provider tag is neither ["local"] nor the authenticating
    provider, [findOrCreateUser] fails with the provider-conflict error and
    writes nothing: the table, and with it the provider and external id of
    that account, is as before. *)
Theorem provider_conflict_leaves_account {H : Jwt.Hmac}
    (s : OAuthService.t) (userInfo : OAuthUserInfo.t) (guestUserID : Z)
    (w : World) (u : User.t) (p : string) :
  fst (draw_fault w) = false ->
  find (UserRepository.has_email (OAuthUserInfo.Email userInfo)) (rows w)
  = Some u ->
  User.Provider u = Some p ->
  p <> "local" ->
  p <> OAuthUserInfo.Provider userInfo ->
  fst (OAuthService.findOrCreateUser s userInfo guestUserID w)
  = Err ("user already exists with provider: " ++ p)
  /\ rows (snd (OAuthService.findOrCreateUser s userInfo guestUserID w))
     = rows w
  /\ find (UserRepository.has_email (OAuthUserInfo.Email userInfo))
       (rows (snd (OAuthService.findOrCreateUser s userInfo guestUserID w)))
     = Some u.
Proof.
  intros Hd Hf Hp Hlocal Hother.
  assert (Hrun : OAuthService.findOrCreateUser s userInfo guestUserID w
                 = (Err ("user already exists with provider: " ++ p),
                    snd (draw_fault w))).
  { unfold OAuthService.findOrCreateUser. unfold bind at 1.
    rewrite GetUserByEmail_run, Hd, Hf.
    unfold OAuthService.is_local, OAuthService.other_provider.
    rewrite Hp. cbn [UserRepository.opt_string_eqb].
    apply String.eqb_neq in Hlocal, Hother. rewrite Hlocal, Hother.
    reflexivity. }
  rewrite Hrun. cbn [fst snd]. rewrite draw_fault_rows. auto.
Qed.

Lemma provider_conflict_leaves_account_witness :
  fst (OAuthService.findOrCreateUser (H := Sample.hmac)
         Sample.oauth yandex_gina 3 Sample.world)
  = Err "user already exists with provider: google"
  /\ rows (snd (OAuthService.findOrCreateUser (H := Sample.hmac) Sample.oauth yandex_gina 3 Sample.world))
     = rows Sample.world.
Proof.
  destruct (provider_conflict_leaves_account (H := Sample.hmac) Sample.oauth yandex_gina 3 Sample.world
              Sample.gina "google") as (He & Hr & _);
    try reflexivity; try discriminate.
  split; assumption.
Defined.

(* ================================================================== *)
(** ** Guest promotion *)


Lemma calm_set_rows (n : nat) (l : list User.t) (w : World) :
  calm n w -> calm n (set_rows l w).
Proof. exact (fun Hc => Hc). Qed.




Lemma same_account_refl (a : User.t) : same_account a a.
Proof. repeat split. Qed.

(** The best-effort timestamp update keeps the clock, the sequence, the
    number of rows and, up to the timestamp, every row. *)
Lemma UpdateLastLogin_keeps (id t : Z) (w : World) :
  now (snd (UserRepository.UpdateLastLogin id t w)) = now w
  /\ next_id (snd (UserRepository.UpdateLastLogin id t w)) = next_id w
  /\ List.length (rows (snd (UserRepository.UpdateLastLogin id t w)))
     = List.length (rows w)
  /\ forall (p : User.t -> bool) (v : User.t),
       (forall u, p (UserRepository.touched t u) = p u) ->
       find p (rows w) = Some v ->
       exists v', find p (rows (snd (UserRepository.UpdateLastLogin id t w)))
                  = Some v'
                  /\ same_account v v'.
Proof.
  rewrite UpdateLastLogin_run.
  destruct (draw_fault_keeps w) as (Hr & Hn & Ht & _).
  destruct (fst (draw_fault w)); cbn [snd].
  - rewrite Hr, Hn, Ht. repeat split.
    intros p v _ Hv. exists v. split; [exact Hv | apply same_account_refl].
  - destruct (find (UserRepository.has_id id) (rows w)); cbn [snd].
    + cbn [now next_id rows set_rows]. rewrite Hn, Ht.
      unfold UserRepository.update_where_id. rewrite length_map.
      repeat split.
      intros p v Hp Hv. rewrite find_map_keeps.
      * rewrite Hv. cbn [option_map]. eexists. split; [reflexivity|].
        destruct (UserRepository.has_id id v); repeat split.
      * intros u. destruct (UserRepository.has_id id u); [apply Hp|reflexivity].
    + rewrite Hr, Hn, Ht. repeat split.
      intros p v _ Hv. exists v. split; [exact Hv | apply same_account_refl].
Qed.




(* ================================================================== *)
(** ** Registration and login *)


Lemma draw_salt_keeps (w : World) :
  rows (snd (draw_salt w)) = rows w
  /\ next_id (snd (draw_salt w)) = next_id w
  /\ now (snd (draw_salt w)) = now w
  /\ faults (snd (draw_salt w)) = faults w.
Proof. unfold draw_salt. destruct (salts w); cbn; auto. Qed.







(* ================================================================== *)
(** ** Linking a local account *)

(** The link write either fails and leaves the table, or rewrites the
    provider and external id of the account. *)
Lemma LinkOAuthAccount_effect (p x e : string) (w : World) (u : User.t) :
  find (UserRepository.has_email e) (rows w) = Some u ->
  now (snd (UserRepository.LinkOAuthAccount (User.ID u) p x w)) = now w
  /\ next_id (snd (UserRepository.LinkOAuthAccount (User.ID u) p x w))
     = next_id w
  /\ List.length (rows (snd (UserRepository.LinkOAuthAccount (User.ID u) p x w)))
     = List.length (rows w)
  /\ ((fst (draw_fault w) = false
       /\ UserRepository.identity_taken (Some (User.ID u)) (Some p) (Some x)
            (rows w) = false
       /\ find (UserRepository.has_email e)
            (rows (snd (UserRepository.LinkOAuthAccount (User.ID u) p x w)))
          = Some (UserRepository.linked p x u))
      \/ ((fst (draw_fault w) = true
           \/ UserRepository.identity_taken (Some (User.ID u)) (Some p) (Some x)
                (rows w) = true)
          /\ rows (snd (UserRepository.LinkOAuthAccount (User.ID u) p x w))
             = rows w)).
Proof.
  intros Hu. rewrite LinkOAuthAccount_run.
  destruct (draw_fault_keeps w) as (Hr & Hn & Ht & _).
  destruct (find_own_id _ _ _ Hu) as [v Hv]. rewrite Hv.
  destruct (fst (draw_fault w)); cbn [snd].
  { rewrite Hr, Hn, Ht. repeat split. right. split; [now left | reflexivity]. }
  destruct (UserRepository.identity_taken _ _ _ (rows w)) eqn:Et; cbn [snd].
  { rewrite Hr, Hn, Ht. repeat split. right. split; [now right | reflexivity]. }
  cbn [now next_id rows set_rows]. rewrite Hn, Ht.
  unfold UserRepository.update_where_id at 1. rewrite length_map.
  repeat split. left. repeat split.
  rewrite find_update_by_email by reflexivity. rewrite Hu. cbn [option_map].
  unfold UserRepository.has_id. now rewrite Z.eqb_refl.
Qed.

Lemma findOrCreateUser_local {H : Jwt.Hmac}
    (s : OAuthService.t) (userInfo : OAuthUserInfo.t) (guestUserID : Z)
    (w : World) (u : User.t) :
  fst (draw_fault w) = false ->
  find (UserRepository.has_email (OAuthUserInfo.Email userInfo)) (rows w)
  = Some u ->
  User.Provider u = Some "local" ->
  exists (w' : World) (v : User.t),
    OAuthService.findOrCreateUser s userInfo guestUserID w
    = (Ok (UserRepository.linked (OAuthUserInfo.Provider userInfo)
             (OAuthUserInfo.ExternalID userInfo) u), w')
    /\ now w' = now w
    /\ next_id w' = next_id w
    /\ List.length (rows w') = List.length (rows w)
    /\ find (UserRepository.has_email (OAuthUserInfo.Email userInfo)) (rows w')
       = Some v
    /\ ((fst (draw_fault (snd (draw_fault w))) = false
         /\ UserRepository.identity_taken (Some (User.ID u))
              (Some (OAuthUserInfo.Provider userInfo))
              (Some (OAuthUserInfo.ExternalID userInfo)) (rows w) = false
         /\ same_account
              (UserRepository.linked (OAuthUserInfo.Provider userInfo)
                 (OAuthUserInfo.ExternalID userInfo) u) v)
        \/ ((fst (draw_fault (snd (draw_fault w))) = true
             \/ UserRepository.identity_taken (Some (User.ID u))
                  (Some (OAuthUserInfo.Provider userInfo))
                  (Some (OAuthUserInfo.ExternalID userInfo)) (rows w) = true)
            /\ same_account u v)).
Proof.
  intros Hd Hu Hlocal.
  set (w1 := snd (draw_fault w)).
  destruct (draw_fault_keeps w) as (Hr1 & Hn1 & Ht1 & _).
  fold w1 in Hr1, Hn1, Ht1.
  assert (Hu1 : find (UserRepository.has_email (OAuthUserInfo.Email userInfo))
                  (rows w1) = Some u) by now rewrite Hr1.
  unfold OAuthService.findOrCreateUser. unfold bind at 1.
  rewrite GetUserByEmail_run, Hd, Hu. fold w1.
  unfold OAuthService.is_local. rewrite Hlocal.
  cbn [UserRepository.opt_string_eqb String.eqb Ascii.eqb Bool.eqb andb].
  cbn [User.ID]. unfold bind at 1.
  destruct (LinkOAuthAccount_effect (OAuthUserInfo.Provider userInfo)
              (OAuthUserInfo.ExternalID userInfo) _ w1 u Hu1)
    as (HtL & HnL & HlL & Hlink).
  destruct (UserRepository.LinkOAuthAccount _ _ _ w1) as [rL wL].
  cbn [snd] in HtL, HnL, HlL, Hlink.
  unfold OAuthService.touch_and_return. unfold bind at 1.
  unfold time_Now at 1. unfold bind at 1. cbn [User.ID].
  destruct (UpdateLastLogin_keeps (User.ID u) (now wL) wL)
    as (HtT & HnT & HlT & Hkeep).
  assert (Hfinal : exists v,
             find (UserRepository.has_email (OAuthUserInfo.Email userInfo))
               (rows (snd (UserRepository.UpdateLastLogin (User.ID u) (now wL) wL)))
             = Some v
             /\ ((fst (draw_fault w1) = false
                  /\ UserRepository.identity_taken (Some (User.ID u))
                       (Some (OAuthUserInfo.Provider userInfo))
                       (Some (OAuthUserInfo.ExternalID userInfo)) (rows w)
                     = false
                  /\ same_account
                       (UserRepository.linked (OAuthUserInfo.Provider userInfo)
                          (OAuthUserInfo.ExternalID userInfo) u) v)
                 \/ ((fst (draw_fault w1) = true
                      \/ UserRepository.identity_taken (Some (User.ID u))
                           (Some (OAuthUserInfo.Provider userInfo))
                           (Some (OAuthUserInfo.ExternalID userInfo)) (rows w)
                         = true)
                     /\ same_account u v))).
  { rewrite Hr1 in Hlink.
    destruct Hlink as [(Hd2 & Hfree & HfL) | (Hfail & HrL)].
    - destruct (Hkeep (UserRepository.has_email (OAuthUserInfo.Email userInfo))
                  _ (fun _ => eq_refl) HfL) as (v & Hv & Hsame).
      exists v. split; [exact Hv|]. left. auto.
    - assert (HfL : find (UserRepository.has_email
                            (OAuthUserInfo.Email userInfo)) (rows wL) = Some u)
        by now rewrite HrL.
      destruct (Hkeep (UserRepository.has_email (OAuthUserInfo.Email userInfo))
                  _ (fun _ => eq_refl) HfL) as (v & Hv & Hsame).
      exists v. split; [exact Hv|]. right. auto. }
  destruct Hfinal as (v & Hv & Hcases).
  destruct (UserRepository.UpdateLastLogin _ _ wL) as [rT wT].
  cbn [snd] in *. cbn [ret].
  exists wT, v. split; [reflexivity|].
  split; [congruence|]. split; [congruence|]. split; [congruence|].
  split; [exact Hv | exact Hcases].
Qed.

(** C7.  When the email of the external identity belongs to an account
    whose provider tag is ["local"], the callback logs that account in: it
    returns the account with the authenticating provider and external id
    attached, its identifier, password credential and role unchanged, and
    a token valid for it; no account is created.  When the link write
    succeeds the stored account carries the new provider and external id;
    when it fails the stored account stays local and the login succeeds
    all the same. *)
Theorem local_account_linking {H : Jwt.Hmac}
    (s : OAuthService.t) (net : OAuthService.Provider)
    (provider code state accessToken : string) (info : OAuthUserInfo.t)
    (w : World) (u : User.t) :
  provider = "google" \/ provider = "yandex" ->
  OAuthService.Exchange net provider code = Ok accessToken ->
  OAuthService.getUserInfo net provider accessToken = Ok info ->
  fst (draw_fault w) = false ->
  find (UserRepository.has_email (OAuthUserInfo.Email info)) (rows w) = Some u ->
  User.Provider u = Some "local" ->
  exists (tok : Jwt.TokenString) (u' : User.t) (w' : World) (v : User.t),
    OAuthService.HandleCallback s net provider code state w = (Ok (tok, u'), w')
    /\ (User.ID u' = User.ID u
        /\ User.Provider u' = Some provider
        /\ User.ExternalID u' = Some (OAuthUserInfo.ExternalID info)
        /\ User.PasswordHash u' = User.PasswordHash u
        /\ User.Role u' = User.Role u)
    /\ List.length (rows w') = List.length (rows w)
    /\ find (UserRepository.has_email (OAuthUserInfo.Email info)) (rows w')
       = Some v
    /\ (User.ID v = User.ID u
        /\ User.PasswordHash v = User.PasswordHash u
        /\ User.Role v = User.Role u)
    /\ (link_succeeds w u provider (OAuthUserInfo.ExternalID info) ->
        User.Provider v = Some provider
        /\ User.ExternalID v = Some (OAuthUserInfo.ExternalID info))
    /\ (link_fails w u provider (OAuthUserInfo.ExternalID info) ->
        User.Provider v = Some "local")
    /\ (forall w2 : World,
          now w <= now w2 < now w + 24 * 3600 ->
          fst (AuthService.ValidateToken (OAuthService.authService s) tok w2)
          = Ok (User.ID u, User.Role u)).
Proof.
  intros Hprov Hex Hinfo Hd Hu Hlocal.
  destruct (findOrCreateUser_local s (OAuthService.with_provider provider info)
              (OAuthService.parseStateForGuestID state) w u Hd Hu Hlocal)
    as (w' & v & Hrun & Hnow & _ & Hlen & Hv & Hcases).
  cbn [OAuthService.with_provider OAuthUserInfo.Provider
       OAuthUserInfo.ExternalID OAuthUserInfo.Email] in Hrun, Hv, Hcases.
  set (u' := UserRepository.linked provider (OAuthUserInfo.ExternalID info) u)
    in *.
  exists (issued_token (OAuthService.authService s) u' (now w)), u', w', v.
  split.
  { unfold OAuthService.HandleCallback.
    assert (Hsup : negb (String.eqb provider "google"
                         || String.eqb provider "yandex") = false)
      by (destruct Hprov as [-> | ->]; reflexivity).
    rewrite Hsup, Hex, Hinfo. unfold bind at 1. rewrite Hrun.
    unfold bind at 1. rewrite GenerateToken_run, Hnow. reflexivity. }
  split; [repeat split|]. split; [exact Hlen|]. split; [exact Hv|].
  assert (Hkept : User.ID v = User.ID u
                  /\ User.PasswordHash v = User.PasswordHash u
                  /\ User.Role v = User.Role u).
  { destruct Hcases as [(_ & _ & Hs) | (_ & Hs)];
      destruct Hs as (Hi & _ & _ & _ & Hp & _ & _ & Hr);
      cbn [u' UserRepository.linked User.ID User.PasswordHash User.Role] in *;
      auto. }
  split; [exact Hkept|].
  split; [|split].
  - intros [Hd2 Hfree].
    destruct Hcases as [(_ & _ & Hs) | ([Hf | Hf] & _)]; try congruence.
    destruct Hs as (_ & _ & _ & _ & _ & Hp & Hx & _).
    cbn [u' UserRepository.linked User.Provider User.ExternalID] in *. auto.
  - intros Hfail.
    destruct Hcases as [(Hd2 & Hfree & _) | (_ & Hs)].
    + destruct Hfail; congruence.
    + destruct Hs as (_ & _ & _ & _ & _ & Hp & _). congruence.
  - intros w2 Ht.
    destruct (ValidateToken_issued (OAuthService.authService s) u' (now w) w2)
      as [Hin _].
    exact (Hin Ht).
Qed.

Lemma local_account_linking_witness :
  (exists (tok : Jwt.TokenString) (u' : User.t) (w' : World) (v : User.t),
      OAuthService.HandleCallback (H := Sample.hmac) Sample.oauth
        sample_provider "google" "code" "google:guest:0" Sample.world
      = (Ok (tok, u'), w')
      /\ User.ID u' = 1
      /\ find (UserRepository.has_email "a@x.com") (rows w') = Some v
      /\ User.Provider v = Some "google"
      /\ User.ExternalID v = Some "g-1")
  /\ (exists (tok : Jwt.TokenString) (u' : User.t) (w' : World) (v : User.t),
         OAuthService.HandleCallback (H := Sample.hmac) Sample.oauth
           sample_provider "google" "code" "google:guest:0" flaky_world
         = (Ok (tok, u'), w')
         /\ User.ID u' = 1
         /\ find (UserRepository.has_email "a@x.com") (rows w') = Some v
         /\ User.Provider v = Some "local"
         /\ fst (AuthService.ValidateToken (H := Sample.hmac) Sample.auth tok
                   (at_time 1500 w')) = Ok (1, "user")).
Proof.
  split.
  - destruct (local_account_linking (H := Sample.hmac) Sample.oauth
                sample_provider "google" "code" "google:guest:0" "access-token"
                (OAuthUserInfo.mk "a@x.com" "Alice" EmptyString "g-1" "google")
                Sample.world Sample.alice)
      as (tok & u' & w' & v & Hrun & (Hid & _) & _ & Hv & _ & Hlinked & _);
      try reflexivity; [now left|].
    exists tok, u', w', v. split; [exact Hrun|]. split; [exact Hid|].
    split; [exact Hv|]. apply Hlinked. split; reflexivity.
  - destruct (local_account_linking (H := Sample.hmac) Sample.oauth
                sample_provider "google" "code" "google:guest:0" "access-token"
                (OAuthUserInfo.mk "a@x.com" "Alice" EmptyString "g-1" "google")
                flaky_world Sample.alice)
      as (tok & u' & w' & v & Hrun & (Hid & _) & _ & Hv & _ & _ & Hfailed
          & Hvalid);
      try reflexivity; [now left|].
    exists tok, u', w', v. split; [exact Hrun|]. split; [exact Hid|].
    split; [exact Hv|]. split.
    + apply Hfailed. left. reflexivity.
    + apply (Hvalid (at_time 1500 w')). simpl. lia.
Defined.

(* ================================================================== *)
(** * Further properties of the code *)

(** ** Provider answers *)

Lemma is_empty_spec (x : string) :
  ProviderInfo.is_empty x = true <-> x = EmptyString.
Proof. unfold ProviderInfo.is_empty. apply String.eqb_eq. Qed.

Lemma app_empty_inv (a b : string) :
  a ++ b = EmptyString -> a = EmptyString /\ b = EmptyString.
Proof. destruct a; [auto | discriminate]. Qed.

Ltac empties :=
  repeat match goal with
         | E : ProviderInfo.is_empty ?x = true |- _ =>
             apply is_empty_spec in E; try subst x
         | E : ProviderInfo.is_empty ?x = false |- _ =>
             let N := fresh "N" in
             assert (N : x <> EmptyString)
               by (intros N; apply is_empty_spec in N; congruence);
             clear E
         end.

Ltac settle :=
  repeat match goal with
         | |- _ /\ _ => split
         | |- _ <-> _ => split
         | |- _ -> _ => intro
         | E : _ /\ _ |- _ => destruct E
         | E : exists _, _ |- _ => destruct E
         | E : _ \/ _ |- _ => destruct E
         | E : _ ++ _ = EmptyString |- _ =>
             apply app_empty_inv in E as [? E]
         | E : _ :: _ = _ :: _ |- _ => injection E as ? ?
         end;
  subst; try reflexivity; try assumption; try discriminate;
  try contradiction; try congruence.

(** X1.  [parseYandexUserInfo] succeeds exactly when the answer has a
    default email or a non-empty first entry in its email list; the
    identity it returns has a non-empty email, the tag ["yandex"] and the
    provider's id, a display name that is empty only when the real, first
    and last names all are, and an avatar link exactly when the answer has
    an avatar id. *)
Theorem yandex_identity (info : ProviderInfo.YandexUserInfo) :
  (is_ok (ProviderInfo.parseYandexUserInfo (Ok info)) = true
   <-> ProviderInfo.y_DefaultEmail info <> EmptyString
       \/ exists first rest,
            ProviderInfo.y_Emails info = first :: rest
            /\ first <> EmptyString)
  /\ forall u : OAuthUserInfo.t,
       ProviderInfo.parseYandexUserInfo (Ok info) = Ok u ->
       OAuthUserInfo.Email u <> EmptyString
       /\ OAuthUserInfo.Provider u = "yandex"
       /\ OAuthUserInfo.ExternalID u = ProviderInfo.y_ID info
       /\ (ProviderInfo.y_DefaultEmail info <> EmptyString ->
           OAuthUserInfo.Email u = ProviderInfo.y_DefaultEmail info)
       /\ (OAuthUserInfo.Name u = EmptyString
           <-> ProviderInfo.y_RealName info = EmptyString
               /\ ProviderInfo.y_FirstName info = EmptyString
               /\ ProviderInfo.y_LastName info = EmptyString)
       /\ (OAuthUserInfo.AvatarURL u = EmptyString
           <-> ProviderInfo.y_DefaultAvatar info = EmptyString).
Proof.
  destruct info as [id login emails demail fname lname rname avatar].
  unfold ProviderInfo.parseYandexUserInfo.
  cbn [ProviderInfo.y_ID ProviderInfo.y_Emails ProviderInfo.y_DefaultEmail
       ProviderInfo.y_FirstName ProviderInfo.y_LastName
       ProviderInfo.y_RealName ProviderInfo.y_DefaultAvatar].
  destruct (ProviderInfo.is_empty demail) eqn:Ed;
    [destruct emails as [|first rest];
     [|cbv beta iota zeta; destruct (ProviderInfo.is_empty first) eqn:Ef]|];
    cbv beta iota zeta; rewrite ?Ed;
    destruct (ProviderInfo.is_empty rname) eqn:Er;
    destruct (ProviderInfo.is_empty lname) eqn:El;
    destruct (ProviderInfo.is_empty fname) eqn:Efn;
    destruct (ProviderInfo.is_empty avatar) eqn:Ea;
    empties; cbn;
    (split;
     [split;
      [intros Hok; try discriminate Hok;
       first [left; assumption | right; eauto]
      |settle]
     |intros u Hu; try discriminate Hu; injection Hu as <-; cbn; settle]).
Qed.

Lemma yandex_identity_witness :
  is_ok (ProviderInfo.parseYandexUserInfo (Ok sample_yandex)) = true
  /\ forall u : OAuthUserInfo.t,
       ProviderInfo.parseYandexUserInfo (Ok sample_yandex) = Ok u ->
       OAuthUserInfo.Email u <> EmptyString
       /\ OAuthUserInfo.Provider u = "yandex".
Proof.
  destruct (yandex_identity sample_yandex) as [Hok Hu]. split.
  - apply Hok. right. exists "ann@ya.ru", ["a2@ya.ru"].
    split; [reflexivity | discriminate].
  - intros u Hparse. destruct (Hu u Hparse) as (He & Hp & _). auto.
Defined.

(** ** The authorization URL and the callback *)





(** ** Searching the state *)

Lemma findSubstring_loop_spec (s p : string) (i : nat) :
  (OAuthService.findSubstring_loop s p i = -1
   /\ forall j, (j <= i)%nat -> substring j (String.length p) s <> p)
  \/ exists j, (j <= i)%nat
               /\ OAuthService.findSubstring_loop s p i = Z.of_nat j
               /\ substring j (String.length p) s = p
               /\ forall k, (j < k <= i)%nat ->
                            substring k (String.length p) s <> p.
Proof.
  induction i as [|i IH]; simpl.
  - destruct (String.eqb_spec (substring 0 (String.length p) s) p) as [E|N].
    + right. exists 0%nat. repeat split; auto. intros k Hk. lia.
    + left. split; [reflexivity|]. intros j Hj.
      replace j with 0%nat by lia. exact N.
  - destruct (String.eqb_spec (substring (S i) (String.length p) s) p) as [E|N].
    + right. exists (S i). repeat split; auto. intros k Hk. lia.
    + destruct IH as [[Hm Hno] | (j & Hj & Hr & Hocc & Hlater)].
      * left. split; [exact Hm|]. intros j Hj.
        destruct (Nat.eq_dec j (S i)) as [->|Hne]; [exact N|].
        apply Hno. lia.
      * right. exists j. repeat split; auto.
        intros k Hk. destruct (Nat.eq_dec k (S i)) as [->|Hne]; [exact N|].
        apply Hlater. lia.
Qed.

(** X4.  For a non-empty [substr], [findSubstring] returns [-1] exactly
    when [s] has no occurrence of it, and otherwise the position of the
    last occurrence: the text splits there, and no occurrence starts
    further right. *)
Theorem findSubstring_last_occurrence (s : string) (c : ascii) (p : string) :
  (OAuthService.findSubstring s (String c p) = -1
   <-> ~ contains s (String c p))
  /\ (OAuthService.findSubstring s (String c p) <> -1 ->
      exists a b,
        s = a ++ String c p ++ b
        /\ OAuthService.findSubstring s (String c p)
           = Z.of_nat (String.length a)
        /\ forall a' b', s = a' ++ String c p ++ b' ->
                         (String.length a' <= String.length a)%nat).
Proof.
  set (pat := String c p).
  assert (Hocc : forall a b, s = a ++ pat ++ b ->
             substring (String.length a) (String.length pat) s = pat
             /\ (String.length a <= String.length s - String.length pat)%nat
             /\ (String.length pat <= String.length s)%nat).
  { intros a b ->. split; [apply substring_occurrence|].
    rewrite !length_app. lia. }
  unfold OAuthService.findSubstring.
  destruct (Nat.ltb_spec (String.length s) (String.length pat)) as [Hshort|Hlong].
  - split.
    + split; [|reflexivity]. intros _ (a & b & E).
      destruct (Hocc a b E) as (_ & _ & Hl). lia.
    + intros Hne. contradiction.
  - destruct (findSubstring_loop_spec s pat
                (String.length s - String.length pat))
      as [[Hm Hno] | (j & Hj & Hr & Hat & Hlater)].
    + rewrite Hm. split.
      * split; [|reflexivity]. intros _ (a & b & E).
        destruct (Hocc a b E) as (Hsub & Hle & _).
        exact (Hno _ Hle Hsub).
      * intros Hne. contradiction.
    + rewrite Hr.
      destruct (occurrence_of_substring c p s j Hat) as (a & b & E & Hla).
      split.
      * split; [lia|]. intros Hno. exfalso. apply Hno. exists a, b. exact E.
      * intros _. exists a, b. split; [exact E|]. split; [now rewrite Hla|].
        intros a' b' E'. destruct (Hocc a' b' E') as (Hsub & Hle & _).
        destruct (Nat.le_gt_cases (String.length a') (String.length a))
          as [Hok|Hgt]; [exact Hok|].
        exfalso. apply (Hlater (String.length a')); [lia | exact Hsub].
Qed.

Lemma findSubstring_last_occurrence_witness :
  OAuthService.findSubstring "guest:guest:12" "guest:" = 6
  /\ OAuthService.findSubstring "google" "guest:" = -1.
Proof.
  split.
  - destruct (findSubstring_last_occurrence "guest:guest:12" "g" "uest:")
      as [_ Hlast].
    destruct Hlast as (a & b & _ & Hr & _); [discriminate|].
    reflexivity.
  - apply (findSubstring_last_occurrence "google" "g" "uest:").
    no_occurrence.
Defined.

(** ** The paginated listing *)





(** ** The profile and its avatar link *)

Lemma prefix_app (p s : string) : String.prefix p (p ++ s) = true.
Proof.
  induction p as [|c p IH]; simpl.
  - now destruct s.
  - destruct (ascii_dec c c); [exact IH | contradiction].
Qed.

(** X6.  [extractMinIOKeyFromURL] undoes the avatar link of
    [GetUserProfile]: the profile carries a link exactly when the stored
    avatar key is not empty, and the key extracted from that link is the
    stored key.  A text that does not start with [/api/avatars/] gives the
    empty key. *)
Theorem avatar_link_roundtrip (userID : Z) (w : World) :
  (forall profile : UserService.UserProfileResponse,
      fst (UserService.GetUserProfile userID w) = Ok profile ->
      exists user : User.t,
        find (UserRepository.has_id userID) (rows w) = Some user
        /\ UserService.p_ID profile = userID
        /\ UserService.p_Role profile = User.Role user
        /\ match UserService.p_AvatarURL profile with
           | Some url =>
               exists key, User.AvatarURL user = Some key
                           /\ key <> EmptyString
                           /\ UserService.extractMinIOKeyFromURL url = key
           | None =>
               User.AvatarURL user = None
               \/ User.AvatarURL user = Some EmptyString
           end)
  /\ (forall url : string,
      UserService.HasPrefix url "/api/avatars/" = false ->
      UserService.extractMinIOKeyFromURL url = EmptyString).
Proof.
  split.
  2:{ intros url Hp. unfold UserService.extractMinIOKeyFromURL.
      now rewrite Hp. }
  intros profile.
  unfold UserService.GetUserProfile, bind.
  unfold UserRepository.GetUserWithLastTrack, bind, get_world, ret.
  pose proof (draw_fault_rows w) as Hr.
  destruct (draw_fault w) as [[|] w1]; cbn [fst snd] in *; [discriminate|].
  rewrite Hr. destruct (find _ (rows w)) as [user|] eqn:Ef; [|discriminate].
  intros [= <-]. exists user.
  cbn [UserService.p_ID UserService.p_Role UserService.p_AvatarURL].
  split; [reflexivity|]. split; [exact (find_has_id _ _ _ Ef)|].
  split; [reflexivity|].
  destruct (User.AvatarURL user) as [key|]; [|now left].
  destruct (String.eqb_spec key EmptyString) as [->|Hne]; cbn [negb].
  - now right.
  - exists key. repeat split; [exact Hne|].
    unfold UserService.extractMinIOKeyFromURL, UserService.HasPrefix.
    change (String "/" (String "a" (String "p" (String "i" (String "/"
              (String "a" (String "v" (String "a" (String "t" (String "a"
              (String "r" (String "s" (String "/" key)))))))))))))
      with ("/api/avatars/" ++ key).
    rewrite prefix_app.
    exact (drop_skip "/api/avatars/" key 0).
Qed.

Lemma avatar_link_roundtrip_witness :
  exists profile : UserService.UserProfileResponse,
    fst (UserService.GetUserProfile 7 avatar_world) = Ok profile
    /\ UserService.p_AvatarURL profile
       = Some "/api/avatars/avatars/7/pic.png"
    /\ UserService.extractMinIOKeyFromURL "/api/avatars/avatars/7/pic.png"
       = "avatars/7/pic.png"
    /\ UserService.extractMinIOKeyFromURL "https://cdn/pic.png" = EmptyString.
Proof.
  destruct (avatar_link_roundtrip 7 avatar_world) as [Hprofile Hother].
  eexists. split; [reflexivity|]. split; [reflexivity|].
  split.
  - destruct (Hprofile _ eq_refl) as (user & Hu & _ & _ & key & Hk & _ & Hx).
    cbn [UserService.p_AvatarURL] in Hx.
    injection Hu as <-. injection Hk as <-. exact Hx.
  - apply Hother. reflexivity.
Defined.


(* ------------------------------------------------------------------ *)
(** ** The table under the operations of the services *)

Lemma kept_refl (u : User.t) : kept u u.
Proof. repeat split. Qed.

Lemma kept_trans (u v x : User.t) : kept u v -> kept v x -> kept u x.
Proof. unfold kept. intros (?&?&?) (?&?&?). repeat split; congruence. Qed.

Lemma persists_refl (l : list User.t) : persists l l.
Proof. intros u Hu. exists u. split; [exact Hu | apply kept_refl]. Qed.

Lemma persists_trans (a b c : list User.t) :
  persists a b -> persists b c -> persists a c.
Proof.
  intros Hab Hbc u Hu.
  destruct (Hab u Hu) as (v & Hv & Kv).
  destruct (Hbc v Hv) as (x & Hx & Kx).
  exists x. split; [exact Hx | exact (kept_trans _ _ _ Kv Kx)].
Qed.

Lemma evolves_refl (w : World) : evolves w w.
Proof.
  split; [auto|]. split; [apply persists_refl|].
  split; [apply Z.le_refl | reflexivity].
Qed.

Lemma evolves_trans (a b c : World) : evolves a b -> evolves b c -> evolves a c.
Proof.
  intros (C1 & P1 & N1 & T1) (C2 & P2 & N2 & T2).
  split; [auto|]. split; [exact (persists_trans _ _ _ P1 P2)|].
  split; [lia | congruence].
Qed.

(** A world with the same table, sequence and clock. *)
Lemma evolves_same (w w' : World) :
  rows w' = rows w -> next_id w' = next_id w -> now w' = now w -> evolves w w'.
Proof.
  intros Hr Hn Ht. unfold evolves, consistent. rewrite Hr, Hn, Ht.
  split; [auto|]. split; [apply persists_refl|].
  split; [apply Z.le_refl | reflexivity].
Qed.

Lemma step_ret {A} (a : A) : step (ret a).
Proof. intro w. apply evolves_refl. Qed.

Lemma step_bind {A B} (m : M A) (k : A -> M B) :
  step m -> (forall a, step (k a)) -> step (bind m k).
Proof.
  intros Hm Hk w. unfold bind.
  specialize (Hm w). destruct (m w) as [a w1]. cbn [snd] in Hm.
  exact (evolves_trans _ _ _ Hm (Hk a w1)).
Qed.

Lemma step_draw_fault : step draw_fault.
Proof.
  intro w. destruct (draw_fault_keeps w) as (Hr & Hn & Ht & _).
  now apply evolves_same.
Qed.

Lemma step_draw_salt : step draw_salt.
Proof.
  intro w. destruct (draw_salt_keeps w) as (Hr & Hn & Ht & _).
  now apply evolves_same.
Qed.

Lemma step_time_Now : step time_Now.
Proof. intro w. apply evolves_refl. Qed.

(** *** The constraints under an insert and under an update *)

Lemma has_id_true (id : Z) (u : User.t) :
  UserRepository.has_id id u = true <-> User.ID u = id.
Proof. unfold UserRepository.has_id. apply Z.eqb_eq. Qed.

Lemma has_id_false (id : Z) (u : User.t) :
  UserRepository.has_id id u = false <-> User.ID u <> id.
Proof. unfold UserRepository.has_id. apply Z.eqb_neq. Qed.

Lemma opt_string_eqb_some (a : option string) (e : string) :
  UserRepository.opt_string_eqb a (Some e) = true <-> a = Some e.
Proof.
  destruct a as [x|]; simpl.
  - rewrite String.eqb_eq. split; congruence.
  - split; discriminate.
Qed.

Lemma existsb_none {A} (p : A -> bool) (l : list A) :
  existsb p l = false -> forall a, In a l -> p a = false.
Proof.
  intros He a Ha. destruct (p a) eqn:Ep; [|reflexivity].
  assert (Ht : existsb p l = true) by (apply existsb_exists; eauto).
  congruence.
Qed.

(** What an email that is not taken means. *)
Lemma email_not_taken (self : option Z) (e : string) (l : list User.t)
    (v : User.t) :
  UserRepository.email_taken self (Some e) l = false ->
  In v l -> User.Email v = Some e ->
  UserRepository.other_row self v = false.
Proof.
  intros Ht Hv He. cbn in Ht.
  pose proof (existsb_none _ _ Ht v Hv) as Hp. cbn beta in Hp.
  unfold UserRepository.has_email in Hp.
  rewrite (proj2 (opt_string_eqb_some _ _) He) in Hp.
  now rewrite andb_true_r in Hp.
Qed.

Lemma identity_not_taken (self : option Z) (p x : string) (l : list User.t)
    (v : User.t) :
  UserRepository.identity_taken self (Some p) (Some x) l = false ->
  In v l -> User.Provider v = Some p -> User.ExternalID v = Some x ->
  UserRepository.other_row self v = false.
Proof.
  intros Ht Hv Hp Hx. cbn in Ht.
  pose proof (existsb_none _ _ Ht v Hv) as Hq. cbn beta in Hq.
  rewrite (proj2 (opt_string_eqb_some _ _) Hp) in Hq.
  rewrite (proj2 (opt_string_eqb_some _ _) Hx) in Hq.
  now rewrite !andb_true_r in Hq.
Qed.

Lemma table_ok_next (l : list User.t) (n : Z) :
  table_ok l n -> table_ok l (n + 1).
Proof.
  intros [Hi He Hx Hr Hs].
  constructor; auto. intros u Hu. specialize (Hs u Hu). lia.
Qed.

Lemma table_ok_append (l : list User.t) (n : Z) (row : User.t) :
  table_ok l n ->
  User.ID row = n ->
  UserRepository.valid_role (User.Role row) = true ->
  UserRepository.email_taken None (User.Email row) l = false ->
  UserRepository.identity_taken None (User.Provider row) (User.ExternalID row) l
  = false ->
  table_ok (l ++ [row]) (n + 1).
Proof.
  intros [Hi He Hx Hr Hs] Hid Hrole Hemail Hident.
  assert (Hin : forall u, In u (l ++ [row]) -> In u l \/ u = row).
  { intros u Hu. apply in_app_or in Hu as [Hu|[Hu|[]]]; auto. }
  constructor.
  - rewrite map_app. cbn [map].
    apply NoDup_app; [exact Hi | repeat constructor; intros [] |].
    intros a Ha [Hb|[]]. apply in_map_iff in Ha as (u & <- & Hu).
    specialize (Hs u Hu). lia.
  - intros u v e Hu Hv Eu Ev.
    destruct (Hin u Hu) as [Hu'| ->], (Hin v Hv) as [Hv'| ->].
    + eauto.
    + rewrite Ev in Hemail.
      pose proof (email_not_taken None e l u Hemail Hu' Eu). discriminate.
    + rewrite Eu in Hemail.
      pose proof (email_not_taken None e l v Hemail Hv' Ev). discriminate.
    + reflexivity.
  - intros u v p x Hu Hv Pu Xu Pv Xv.
    destruct (Hin u Hu) as [Hu'| ->], (Hin v Hv) as [Hv'| ->].
    + eauto.
    + rewrite Pv, Xv in Hident.
      pose proof (identity_not_taken None p x l u Hident Hu' Pu Xu).
      discriminate.
    + rewrite Pu, Xu in Hident.
      pose proof (identity_not_taken None p x l v Hident Hv' Pv Xv).
      discriminate.
    + reflexivity.
  - intros u Hu. destruct (Hin u Hu) as [Hu'| ->]; auto.
  - intros u Hu. destruct (Hin u Hu) as [Hu'| ->].
    + specialize (Hs u Hu'). lia.
    + lia.
Qed.

(** An update of the row [id] by [f] keeps the constraints when [f] keeps
    the id, writes a valid role, and writes an email and an identity that
    no other row holds. *)
Lemma table_ok_update (l : list User.t) (n id : Z) (f : User.t -> User.t) :
  table_ok l n ->
  (forall u, User.ID (f u) = User.ID u) ->
  (forall u, In u l -> User.ID u = id ->
             UserRepository.valid_role (User.Role (f u)) = true) ->
  (forall u v e, In u l -> In v l -> User.ID u = id ->
                 User.Email (f u) = Some e -> User.Email v = Some e ->
                 User.ID v = id) ->
  (forall u v p x, In u l -> In v l -> User.ID u = id ->
                   User.Provider (f u) = Some p ->
                   User.ExternalID (f u) = Some x ->
                   User.Provider v = Some p -> User.ExternalID v = Some x ->
                   User.ID v = id) ->
  table_ok (UserRepository.update_where_id id f l) n.
Proof.
  intros [Hi He Hx Hr Hs] Hid Hrole Hemail Hident.
  unfold UserRepository.update_where_id.
  set (g := fun u => if UserRepository.has_id id u then f u else u).
  assert (Hg : forall u, User.ID (g u) = User.ID u).
  { intro u. unfold g. destruct (UserRepository.has_id id u); auto. }
  assert (Hpre : forall u', In u' (map g l) ->
            exists u, In u l /\ u' = g u).
  { intros u' Hu'. apply in_map_iff in Hu' as (u & <- & Hu). eauto. }
  constructor.
  - rewrite map_map.
    erewrite map_ext; [exact Hi | exact Hg].
  - intros u' v' e Hu' Hv' Eu Ev.
    destruct (Hpre u' Hu') as (u & Hu & ->), (Hpre v' Hv') as (v & Hv & ->).
    rewrite !Hg. unfold g in Eu, Ev.
    destruct (UserRepository.has_id id u) eqn:Iu,
             (UserRepository.has_id id v) eqn:Iv.
    + apply has_id_true in Iu, Iv. congruence.
    + apply has_id_true in Iu. apply has_id_false in Iv.
      exfalso. apply Iv. eauto.
    + apply has_id_true in Iv. apply has_id_false in Iu.
      exfalso. apply Iu. eauto.
    + eauto.
  - intros u' v' p x Hu' Hv' Pu Xu Pv Xv.
    destruct (Hpre u' Hu') as (u & Hu & ->), (Hpre v' Hv') as (v & Hv & ->).
    rewrite !Hg. unfold g in Pu, Xu, Pv, Xv.
    destruct (UserRepository.has_id id u) eqn:Iu,
             (UserRepository.has_id id v) eqn:Iv.
    + apply has_id_true in Iu, Iv. congruence.
    + apply has_id_true in Iu. apply has_id_false in Iv.
      exfalso. apply Iv. eauto.
    + apply has_id_true in Iv. apply has_id_false in Iu.
      exfalso. apply Iu. eauto.
    + eauto.
  - intros u' Hu'. destruct (Hpre u' Hu') as (u & Hu & ->). unfold g.
    destruct (UserRepository.has_id id u) eqn:Iu; [|auto].
    apply has_id_true in Iu. auto.
  - intros u' Hu'. destruct (Hpre u' Hu') as (u & Hu & ->).
    rewrite Hg. auto.
Qed.

Lemma persists_update (l : list User.t) (id : Z) (f : User.t -> User.t) :
  (forall u, kept u (f u)) ->
  persists l (UserRepository.update_where_id id f l).
Proof.
  intros Hf u Hu.
  exists (if UserRepository.has_id id u then f u else u). split.
  - unfold UserRepository.update_where_id.
    apply in_map_iff. exists u. auto.
  - destruct (UserRepository.has_id id u); [apply Hf | apply kept_refl].
Qed.

Lemma persists_append (l : list User.t) (row : User.t) :
  persists l (l ++ [row]).
Proof.
  intros u Hu. exists u. split; [apply in_or_app; auto | apply kept_refl].
Qed.

(** A write that replaces the table of the world reached by [draw_fault]. *)
Lemma evolves_write (w : World) (l : list User.t) :
  (table_ok (rows w) (next_id w) -> table_ok l (next_id w)) ->
  persists (rows w) l ->
  evolves w (set_rows l (snd (draw_fault w))).
Proof.
  intros Hc Hp. destruct (draw_fault_keeps w) as (Hr & Hn & Ht & _).
  unfold evolves, consistent. cbn [rows next_id now set_rows].
  rewrite Hn, Ht.
  split; [exact Hc|]. split; [exact Hp|].
  split; [apply Z.le_refl | reflexivity].
Qed.

(** *** The repository *)

Lemma step_GetUserByEmail (email : string) :
  step (UserRepository.GetUserByEmail email).
Proof. intro w. rewrite GetUserByEmail_run. apply step_draw_fault. Qed.

Lemma step_GetUserByID (id : Z) : step (UserRepository.GetUserByID id).
Proof. intro w. rewrite GetUserByID_run. apply step_draw_fault. Qed.

Lemma step_GetUserWithLastTrack (id : Z) :
  step (UserRepository.GetUserWithLastTrack id).
Proof.
  intro w. unfold UserRepository.GetUserWithLastTrack, bind, get_world, ret.
  pose proof (step_draw_fault w) as Hs.
  destruct (draw_fault w) as [[|] w1]; cbn [snd] in *; [exact Hs|].
  destruct (find _ (rows w1)); exact Hs.
Qed.

Lemma step_UpdateLastLogin (id t : Z) :
  step (UserRepository.UpdateLastLogin id t).
Proof.
  intro w. rewrite UpdateLastLogin_run.
  destruct (fst (draw_fault w)); [apply step_draw_fault|].
  destruct (find _ (rows w)); [|apply step_draw_fault].
  cbn [snd]. apply evolves_write.
  - intro Hc. apply table_ok_update; auto.
    + intros u Hu _. exact (roles_valid _ _ Hc u Hu).
    + intros u v e Hu Hv <- Eu Ev. symmetry.
      exact (unique_email _ _ Hc u v e Hu Hv Eu Ev).
    + intros u v p x Hu Hv <- Pu Xu Pv Xv. symmetry.
      exact (unique_identity _ _ Hc u v p x Hu Hv Pu Xu Pv Xv).
  - apply persists_update. intro u. repeat split.
Qed.

Lemma step_LinkOAuthAccount (id : Z) (p x : string) :
  step (UserRepository.LinkOAuthAccount id p x).
Proof.
  intro w. rewrite LinkOAuthAccount_run.
  destruct (fst (draw_fault w)); [apply step_draw_fault|].
  destruct (find _ (rows w)); [|apply step_draw_fault].
  destruct (UserRepository.identity_taken _ _ _ _) eqn:Et;
    [apply step_draw_fault|].
  cbn [snd]. apply evolves_write.
  - intro Hc. apply table_ok_update; auto.
    + intros u Hu _. exact (roles_valid _ _ Hc u Hu).
    + intros u v e Hu Hv <- Eu Ev. symmetry.
      exact (unique_email _ _ Hc u v e Hu Hv Eu Ev).
    + intros u v p' x' Hu Hv Iu [= <-] [= <-] Pv Xv.
      pose proof (identity_not_taken _ _ _ _ v Et Hv Pv Xv) as Ho.
      cbn in Ho. apply negb_false_iff in Ho. now apply has_id_true.
  - apply persists_update. intro u. repeat split.
Qed.

Lemma step_UpdateUser (user : User.t) : step (UserRepository.UpdateUser user).
Proof.
  intro w. rewrite UpdateUser_run.
  destruct (fst (draw_fault w)); [apply step_draw_fault|].
  destruct (find _ (rows w)); [|apply step_draw_fault].
  destruct (negb _ || _ || _) eqn:Ec; [apply step_draw_fault|].
  apply orb_false_iff in Ec as [Ec Ei].
  apply orb_false_iff in Ec as [Er Ee].
  apply negb_false_iff in Er.
  cbn [snd]. apply evolves_write.
  - intro Hc. apply table_ok_update; auto.
    + intros u v e Hu Hv Iu Eu Ev. cbn in Eu. rewrite Eu in Ee.
      pose proof (email_not_taken _ _ _ v Ee Hv Ev) as Ho.
      cbn in Ho. apply negb_false_iff in Ho. now apply has_id_true.
    + intros u v p x Hu Hv Iu Pu Xu Pv Xv. cbn in Pu, Xu.
      rewrite Pu, Xu in Ei.
      pose proof (identity_not_taken _ _ _ _ v Ei Hv Pv Xv) as Ho.
      cbn in Ho. apply negb_false_iff in Ho. now apply has_id_true.
  - apply persists_update. intro u. repeat split.
Qed.

Lemma step_CreateUser (user : User.t) : step (UserRepository.CreateUser user).
Proof.
  intro w. rewrite CreateUser_run.
  destruct (draw_fault_keeps w) as (Hr & Hn & Ht & _).
  destruct (fst (draw_fault w)); [apply step_draw_fault|].
  destruct (negb _ || _ || _ || _) eqn:Ec.
  - unfold evolves, consistent.
    cbn [snd rows next_id now set_next_id]. rewrite Hr, Ht.
    split; [apply table_ok_next|]. split; [apply persists_refl|].
    split; [lia | reflexivity].
  - apply orb_false_iff in Ec as [Ec Ei].
    apply orb_false_iff in Ec as [Ec Ee].
    apply orb_false_iff in Ec as [Er _].
    apply negb_false_iff in Er.
    unfold evolves, consistent.
    cbn [snd rows next_id now set_next_id set_rows]. rewrite Ht.
    split; [intro Hc; now apply table_ok_append|].
    split; [apply persists_append|]. split; [lia | reflexivity].
Qed.

(** *** The services, by their structure *)

Ltac step_base :=
  first [ apply step_ret
        | apply step_draw_fault
        | apply step_draw_salt
        | apply step_time_Now
        | apply step_GetUserByEmail
        | apply step_GetUserByID
        | apply step_GetUserWithLastTrack
        | apply step_UpdateLastLogin
        | apply step_LinkOAuthAccount
        | apply step_UpdateUser
        | apply step_CreateUser ].

Ltac walk :=
  repeat (cbv zeta;
          first [ step_base
                | solve [auto]
                | match goal with
                  | |- step (bind _ _) => apply step_bind; [| intro]
                  | |- step (match ?x with _ => _ end) => destruct x
                  end ]).

Section Steps.
Context {B : Bcrypt} {H : Jwt.Hmac}.
Variable a : AuthService.t.
Variable s : OAuthService.t.

Lemma step_GenerateToken (user : User.t) :
  step (AuthService.GenerateToken a user).
Proof. intro w. rewrite GenerateToken_run. apply evolves_refl. Qed.

Lemma step_Register (email password : string) :
  step (AuthService.Register a email password).
Proof.
  pose proof step_GenerateToken. unfold AuthService.Register. walk.
Qed.

Lemma step_Login (email password : string) :
  step (AuthService.Login a email password).
Proof.
  pose proof step_GenerateToken. unfold AuthService.Login. walk.
Qed.

Lemma step_GuestLogin : step (AuthService.GuestLogin a).
Proof.
  pose proof step_GenerateToken. unfold AuthService.GuestLogin. walk.
Qed.

Lemma step_PromoteGuestToUser (guestID : Z) (userInfo : OAuthUserInfo.t) :
  step (AuthService.PromoteGuestToUser a guestID userInfo).
Proof.
  pose proof step_GenerateToken. unfold AuthService.PromoteGuestToUser. walk.
Qed.

End Steps.

Section OAuthSteps.
Context {H : Jwt.Hmac}.
Variable s : OAuthService.t.

Lemma step_findOrCreateUser (userInfo : OAuthUserInfo.t) (guestUserID : Z) :
  step (OAuthService.findOrCreateUser s userInfo guestUserID).
Proof.
  pose proof (step_PromoteGuestToUser (OAuthService.authService s)).
  unfold OAuthService.findOrCreateUser, OAuthService.touch_and_return,
    OAuthService.createOAuthUser.
  walk.
Qed.

Lemma step_HandleCallback (net : OAuthService.Provider)
    (provider code state : string) :
  step (OAuthService.HandleCallback s net provider code state).
Proof.
  pose proof step_findOrCreateUser.
  pose proof (step_GenerateToken (OAuthService.authService s)).
  unfold OAuthService.HandleCallback. walk.
Qed.

End OAuthSteps.

Lemma evolves_after {B : Bcrypt} {H : Jwt.Hmac}
    (s : OAuthService.t) (op : Operation) (w : World) :
  evolves w (after s op w).
Proof.
  destruct op; cbn [after].
  - apply step_CreateUser.
  - apply step_UpdateUser.
  - apply step_LinkOAuthAccount.
  - apply step_UpdateLastLogin.
  - apply step_Register.
  - apply step_Login.
  - apply step_GuestLogin.
  - apply step_PromoteGuestToUser.
  - apply step_findOrCreateUser.
  - apply step_HandleCallback.
Qed.

Lemma evolves_after_all {B : Bcrypt} {H : Jwt.Hmac}
    (s : OAuthService.t) (ops : list Operation) (w : World) :
  evolves w (after_all s ops w).
Proof.
  unfold after_all. revert w.
  induction ops as [|op ops IH]; intro w; cbn [fold_left].
  - apply evolves_refl.
  - exact (evolves_trans _ _ _ (evolves_after s op w) (IH _)).
Qed.




(** X8.  No operation removes an account or rewrites what identifies it:
    every row of the table is still there after any sequence of repository
    writes and service calls, with the id, the password hash and the
    creation time it had; and the sequence of ids never goes back. *)
Theorem accounts_are_never_lost {B : Bcrypt} {H : Jwt.Hmac}
    (s : OAuthService.t) (ops : list Operation) (w : World) (u : User.t) :
  In u (rows w) ->
  (exists v : User.t,
      In v (rows (after_all s ops w))
      /\ User.ID v = User.ID u
      /\ User.PasswordHash v = User.PasswordHash u
      /\ User.CreatedAt v = User.CreatedAt u)
  /\ next_id w <= next_id (after_all s ops w).
Proof.
  intro Hu. destruct (evolves_after_all s ops w) as (_ & Hp & Hn & _).
  split; [exact (Hp u Hu) | exact Hn].
Qed.

Lemma accounts_are_never_lost_witness :
  In Sample.guest (rows Sample.world)
  /\ exists v : User.t,
       In v (rows (after_all (B := Sample.bcrypt) (H := Sample.hmac)
                     Sample.oauth sample_day Sample.world))
       /\ User.ID v = 3
       /\ User.PasswordHash v = None.
Proof.
  assert (Hin : In Sample.guest (rows Sample.world))
    by (cbn; auto).
  split; [exact Hin|].
  destruct (accounts_are_never_lost (B := Sample.bcrypt) (H := Sample.hmac)
              Sample.oauth sample_day Sample.world Sample.guest Hin)
    as [(v & Hv & Hi & Hp & _) _].
  exists v. auto.
Defined.

(* ------------------------------------------------------------------ *)
(** ** Registration, guest login and login *)

Lemma email_found_taken (e : string) (l : list User.t) (u : User.t) :
  find (UserRepository.has_email e) l = Some u ->
  UserRepository.email_taken None (Some e) l = true.
Proof.
  intro Hf. apply find_some in Hf as [Hin He].
  cbn. apply existsb_exists. exists u. split; [exact Hin | exact He].
Qed.

(** X9.  [Register] never creates a second account for an email that an
    account already has.  With such an email it fails and leaves the table
    as it was, whichever round trips to the database fail; when the lookup
    reaches the database the error is ["user with this email already
    exists"] and no id is taken from the sequence.  (When the lookup itself
    fails, the service goes on to the insert, which the unique constraint
    on the email rejects.) *)
Theorem register_existing_email {B : Bcrypt} {H : Jwt.Hmac}
    (a : AuthService.t) (email password : string) (w : World) (u : User.t) :
  find (UserRepository.has_email email) (rows w) = Some u ->
  rejects (AuthService.Register a email password w)
  /\ rows (snd (AuthService.Register a email password w)) = rows w
  /\ (fst (draw_fault w) = false ->
      fst (AuthService.Register a email password w)
      = Err "user with this email already exists"
      /\ next_id (snd (AuthService.Register a email password w)) = next_id w).
Proof.
  intro Hf.
  assert (Hrun : exists (e : string) (w' : World),
             AuthService.Register a email password w = (Err e, w')
             /\ rows w' = rows w
             /\ (fst (draw_fault w) = false ->
                 e = "user with this email already exists"
                 /\ next_id w' = next_id w)).
  { unfold AuthService.Register, bind.
    rewrite GetUserByEmail_run, Hf.
    destruct (draw_fault_keeps w) as (Hr & Hn & _).
    destruct (fst (draw_fault w)) eqn:Hd.
    - destruct (draw_salt_keeps (snd (draw_fault w))) as (Hr2 & _).
      destruct (draw_salt (snd (draw_fault w))) as [salt w2].
      cbn [snd] in Hr2.
      destruct (GenerateFromPassword salt password) as [hash|e].
      + rewrite CreateUser_run.
        destruct (draw_fault_keeps w2) as (Hr3 & _).
        cbn [User.Email User.Role User.Provider User.ExternalID].
        rewrite Hr2, Hr, (email_found_taken _ _ _ Hf), !orb_true_r.
        cbn [orb].
        destruct (fst (draw_fault w2)); cbn [ret].
        * do 2 eexists. split; [reflexivity|].
          split; [congruence | discriminate].
        * do 2 eexists. split; [reflexivity|].
          split; [cbn [rows set_next_id]; congruence | discriminate].
      + cbn [ret]. do 2 eexists. split; [reflexivity|].
        split; [congruence | discriminate].
    - cbn [ret]. do 2 eexists. split; [reflexivity|].
      split; [exact Hr|]. intros _. split; [reflexivity | exact Hn]. }
  destruct Hrun as (e & w' & Hrun & Hrows & Hcalm).
  unfold rejects. rewrite Hrun. cbn [fst snd].
  split; [reflexivity|]. split; [exact Hrows|].
  intro Hd. destruct (Hcalm Hd) as [-> Hn]. split; [reflexivity | exact Hn].
Qed.

Lemma register_existing_email_witness :
  fst (AuthService.Register (B := Sample.bcrypt) (H := Sample.hmac) Sample.auth
         "a@x.com" "again" Sample.world)
  = Err "user with this email already exists"
  /\ rows (snd (AuthService.Register (B := Sample.bcrypt) (H := Sample.hmac)
                  Sample.auth "a@x.com" "again"
                  (set_faults [true] Sample.world)))
     = rows Sample.world
  /\ rejects (AuthService.Register (B := Sample.bcrypt) (H := Sample.hmac)
                Sample.auth "a@x.com" "again"
                (set_faults [true] Sample.world)).
Proof.
  destruct (register_existing_email (B := Sample.bcrypt) (H := Sample.hmac)
              Sample.auth "a@x.com" "again" Sample.world Sample.alice
              eq_refl) as (_ & _ & Hmsg).
  destruct (register_existing_email (B := Sample.bcrypt) (H := Sample.hmac)
              Sample.auth "a@x.com" "again" (set_faults [true] Sample.world)
              Sample.alice eq_refl) as (Hrej & Hrows & _).
  split; [exact (proj1 (Hmsg eq_refl))|].
  split; [exact Hrows | exact Hrej].
Defined.
